(** * Blog API: a shallow embedding of [app.py] and its specification

    [app.py] is a Flask application that exposes CRUD operations over one
    PostgreSQL table, [posts].  The development below embeds

    - the Python values the handlers manipulate (request bodies, rows,
      response bodies), with Python's truthiness, [dict.get] and [str.strip];
    - the storage layer as the handlers drive it through psycopg2: the table
      declared by [init_db], the four SQL statements, transactions, and the
      connections that are opened and closed;
    - the four handlers, written in a small state-and-exception monad so that
      each reads line by line like its Python source;

    and then states and proves the properties of the specification. *)

From Stdlib Require Import List ZArith NArith Lia Bool String Ascii.
From Stdlib Require Import DecimalString.
From Stdlib Require Import Permutation Sorted SpecFloat.
Import ListNotations.
Open Scope string_scope.
Open Scope list_scope.

(* ================================================================= *)
(** * Python values *)

Module Py.

(** A Python [str] is a sequence of Unicode code points; [len] counts code
    points. *)
Definition pystr := list N.

(** A string literal of the source, as a [pystr]. *)
Fixpoint py (s : string) : pystr :=
  match s with
  | EmptyString => []
  | String a s' => N_of_ascii a :: py s'
  end.

Fixpoint pystr_eqb (a b : pystr) : bool :=
  match a, b with
  | [], [] => true
  | x :: a', y :: b' => N.eqb x y && pystr_eqb a' b'
  | _, _ => false
  end.

(** [str.isspace] for one code point: the characters [str.strip()] removes
    when called without argument (U+0009..U+000D, U+001C..U+0020, U+0085,
    U+00A0, U+1680, U+2000..U+200A, U+2028, U+2029, U+202F, U+205F,
    U+3000). *)
Definition isspace (c : N) : bool :=
  ((9 <=? c) && (c <=? 13) || (28 <=? c) && (c <=? 32)
   || (c =? 133) || (c =? 160) || (c =? 5760)
   || (8192 <=? c) && (c <=? 8202)
   || (c =? 8232) || (c =? 8233) || (c =? 8239) || (c =? 8287)
   || (c =? 12288))%N.

Fixpoint lstrip (s : pystr) : pystr :=
  match s with
  | [] => []
  | c :: s' => if isspace c then lstrip s' else s
  end.

Definition rstrip (s : pystr) : pystr := rev (lstrip (rev s)).

(** [s.strip()] *)
Definition strip (s : pystr) : pystr := rstrip (lstrip s).

(** The values that reach the handlers: what [json.loads] produces
    ([None], [bool], [int], [float], [str], [list], [dict]), the rows a
    cursor returns (a [RealDictRow] is a [dict], a plain row a [tuple]) and
    the [datetime] of a [TIMESTAMP] column. *)
#[warnings="-register-all"]
Inductive pyval : Type :=
| PNone
| PBool (b : bool)
| PInt (z : Z)
| PFloat (f : spec_float)
| PStr (s : pystr)
| PList (l : list pyval)
| PTuple (l : list pyval)
| PDict (d : list (pystr * pyval))
| PDatetime (t : Z).

(** Truth value of an object, as tested by [not x] and [if x]. *)
Definition truthy (v : pyval) : bool :=
  match v with
  | PNone => false
  | PBool b => b
  | PInt z => negb (z =? 0)%Z
  | PFloat (S754_zero _) => false
  | PFloat _ => true
  | PStr s => negb (Nat.eqb (List.length s) 0)
  | PList l => negb (Nat.eqb (List.length l) 0)
  | PTuple l => negb (Nat.eqb (List.length l) 0)
  | PDict d => negb (Nat.eqb (List.length d) 0)
  | PDatetime _ => true
  end.

Definition type_name (v : pyval) : string :=
  match v with
  | PNone => "NoneType"
  | PBool _ => "bool"
  | PInt _ => "int"
  | PFloat _ => "float"
  | PStr _ => "str"
  | PList _ => "list"
  | PTuple _ => "tuple"
  | PDict _ => "dict"
  | PDatetime _ => "datetime.datetime"
  end.

(** Exceptions carry their class and the text [str(e)] yields. *)
Record exn : Type := Exception { exn_class : string; exn_str : string }.

(** Pieces of the texts of exceptions: a line end, a double quote, a number
    in decimal, a code point as four hexadecimal digits. *)
Definition newline : string := String (ascii_of_nat 10) EmptyString.

Definition double_quote : string := String (ascii_of_nat 34) EmptyString.

Definition decimal (n : nat) : string :=
  NilZero.string_of_uint (Nat.to_uint n).

Definition decimal_Z (z : Z) : string := NilZero.string_of_int (Z.to_int z).

Definition hex_digit (d : N) : string :=
  String.substring (N.to_nat d) 1 "0123456789abcdef".

Definition hex4 (c : N) : string :=
  (hex_digit (c / 4096 mod 16) ++ hex_digit (c / 256 mod 16)
   ++ hex_digit (c / 16 mod 16) ++ hex_digit (c mod 16))%string.

Definition AttributeError (v : pyval) (attr : string) : exn :=
  Exception "AttributeError"
    ("'" ++ type_name v ++ "' object has no attribute '" ++ attr ++ "'")%string.

(** Lookup in a [dict]: the first binding of the key. *)
Fixpoint dict_lookup (d : list (pystr * pyval)) (k : pystr) : option pyval :=
  match d with
  | [] => None
  | (k', v) :: d' => if pystr_eqb k' k then Some v else dict_lookup d' k
  end.

(** [v.get(k, default)]: defined on a [dict] only; every other value the
    handlers can hold has no attribute [get]. *)
Definition get (v : pyval) (k : pystr) (default : pyval) : exn + pyval :=
  match v with
  | PDict d =>
      inr (match dict_lookup d k with Some x => x | None => default end)
  | _ => inl (AttributeError v "get")
  end.

(** [v.strip()]: defined on a [str] only. *)
Definition strip_method (v : pyval) : exn + pystr :=
  match v with
  | PStr s => inr (strip s)
  | _ => inl (AttributeError v "strip")
  end.

End Py.

Import Py.

(* ================================================================= *)
(** * The storage layer *)

Module Pg.

(** One row of the table [init_db] declares:
[[
    CREATE TABLE IF NOT EXISTS posts (
        id SERIAL PRIMARY KEY,
        title VARCHAR(200) NOT NULL,
        content TEXT NOT NULL,
        created_at TIMESTAMP DEFAULT CURRENT_TIMESTAMP)
]]
    Timestamps are counted in microseconds from some epoch. *)
Record post : Type := Post {
  id : Z;
  title : pystr;
  content : pystr;
  created_at : Z
}.

Definition table := list post.

(** A result row: the selected columns, by name, in order. *)
Definition row := list (string * pyval).

Definition post_row (p : post) : row :=
  [("id", PInt (id p)); ("title", PStr (title p));
   ("content", PStr (content p)); ("created_at", PDatetime (created_at p))].

Definition id_row (p : post) : row := [("id", PInt (id p))].

(** The statements of [app.py], with their parameters. *)
Inductive statement : Type :=
| CreatePosts                                (* CREATE TABLE IF NOT EXISTS posts ... *)
| SelectPosts                                (* SELECT * FROM posts ORDER BY created_at DESC *)
| InsertPost (title content : pystr)         (* INSERT INTO posts (title, content) VALUES (%s, %s) RETURNING * *)
| UpdatePost (title content : pystr) (i : Z) (* UPDATE posts SET title = %s, content = %s WHERE id = %s RETURNING * *)
| DeletePost (i : Z).                        (* DELETE FROM posts WHERE id = %s RETURNING id *)

(** The string parameters of a statement, in their order. *)
Definition string_parameters (s : statement) : list pystr :=
  match s with
  | InsertPost t c | UpdatePost t c _ => [t; c]
  | CreatePosts | SelectPosts | DeletePost _ => []
  end.

(** Assignment of a string to a [VARCHAR(n)] column: a longer value is an
    error, unless the characters beyond [n] are all spaces, which are
    cut off. *)
Definition value_too_long : exn :=
  Exception "StringDataRightTruncation"
    ("value too long for type character varying(200)" ++ newline)%string.

Definition varchar (n : nat) (s : pystr) : exn + pystr :=
  if Nat.leb (List.length s) n then inr s
  else if forallb (N.eqb 32) (skipn n s) then inr (firstn n s)
  else inl value_too_long.

(** The sequence behind [id SERIAL] is a 32-bit one. *)
Definition max_serial : Z := 2147483647.

Definition sequence_exhausted : exn :=
  Exception "SequenceGeneratorLimitExceeded"
    ("nextval: reached maximum value of sequence " ++ double_quote
     ++ "posts_id_seq" ++ double_quote ++ " (2147483647)" ++ newline)%string.

Definition unique_violation (i : Z) : exn :=
  Exception "UniqueViolation"
    ("duplicate key value violates unique constraint " ++ double_quote
     ++ "posts_pkey" ++ double_quote ++ newline
     ++ "DETAIL:  Key (id)=(" ++ decimal_Z i ++ ") already exists."
     ++ newline)%string.

(** ** What the driver can send

    psycopg2 puts the parameters of a statement into its text itself.  A
    [str] is encoded as UTF-8, which fails on a surrogate (a JSON body can
    hold one, escaped), and the encoded text may hold no NUL character.  An
    error here is raised by [cur.execute] before anything is sent to the
    server (the database is taken to be a UTF-8 one, which stores every
    other string). *)
Definition surrogate (c : N) : bool := ((55296 <=? c) && (c <=? 57343))%N.

Fixpoint surrogates (s : pystr) : nat :=
  match s with
  | c :: s' => if surrogate c then S (surrogates s') else 0
  | [] => 0
  end.

Definition UnicodeEncodeError (pos : nat) (c : N) (run : nat) : exn :=
  Exception "UnicodeEncodeError"
    (match run with
     | 1 =>
         "'utf-8' codec can't encode character '\u" ++ hex4 c
         ++ "' in position " ++ decimal pos
     | _ =>
         "'utf-8' codec can't encode characters in position " ++ decimal pos
         ++ "-" ++ decimal (pos + run - 1)
     end ++ ": surrogates not allowed")%string.

Fixpoint encode_error (pos : nat) (s : pystr) : option exn :=
  match s with
  | [] => None
  | c :: s' =>
      if surrogate c then Some (UnicodeEncodeError pos c (surrogates s))
      else encode_error (S pos) s'
  end.

Definition NulError : exn :=
  Exception "ValueError"
    "A string literal cannot contain NUL (0x00) characters.".

(** The error of adapting one string parameter, if there is one. *)
Definition adapt (s : pystr) : option exn :=
  match encode_error 0 s with
  | Some x => Some x
  | None => if existsb (N.eqb 0) s then Some NulError else None
  end.

(** The parameters are adapted in their order; the first error is raised. *)
Fixpoint adapt_all (ps : list pystr) : option exn :=
  match ps with
  | [] => None
  | s :: ps' =>
      match adapt s with
      | Some x => Some x
      | None => adapt_all ps'
      end
  end.

(** [ORDER BY created_at DESC]: rows with equal timestamps come in an order
    the database does not promise.  That order is the server's choice on the
    day: [rank] is that choice (the smaller rank first), it comes with the
    environment of the request, and nothing is known of it.  Rows that the
    rank leaves tied as well come as the table holds them. *)
Definition precedes (rank : post -> Z) (p q : post) : bool :=
  (created_at q <? created_at p)%Z
  || ((created_at q =? created_at p)%Z && (rank p <? rank q)%Z).

Fixpoint insert_desc (rank : post -> Z) (p : post) (l : list post)
  : list post :=
  match l with
  | [] => [p]
  | q :: l' =>
      if precedes rank q p then q :: insert_desc rank p l'
      else p :: l
  end.

Fixpoint order_by_created_at_desc (rank : post -> Z) (l : list post)
  : list post :=
  match l with
  | [] => []
  | p :: l' => insert_desc rank p (order_by_created_at_desc rank l')
  end.

Definition has_id (i : Z) (p : post) : bool := (id p =? i)%Z.

Definition set_title_content (t c : pystr) (p : post) : post :=
  {| id := id p; title := t; content := c; created_at := created_at p |}.

(** [SET title = t, content = c WHERE id = i], on one row. *)
Definition update_row (i : Z) (t c : pystr) (p : post) : post :=
  if has_id i p then set_title_content t c p else p.

(** What one statement does to the table as the running transaction sees
    it.  [seq] is the last value of the sequence behind [id SERIAL]; a
    sequence is not transactional, so its new value is returned apart and
    survives an error or a rollback.  [now] is [CURRENT_TIMESTAMP].  The
    parameters of a statement are constants of its text: a title is
    converted to [VARCHAR(200)] when the statement is planned, before the
    sequence is advanced or a row is looked at.  The sequence stops at
    [max_serial].  [rank] is the order the server gives to rows that
    [ORDER BY] leaves tied.  A statement returns the table it leaves and
    its result rows, or raises.  The order of the rows in the table is the
    order the model keeps them in; the database promises none. *)
Definition run_statement (s : statement) (now : Z) (rank : post -> Z)
    (t : table) (seq : Z)
  : (exn + table * list row) * Z :=
  match s with
  | CreatePosts => (inr (t, []), seq)
  | SelectPosts =>
      (inr (t, map post_row (order_by_created_at_desc rank t)), seq)
  | InsertPost ti co =>
      match varchar 200 ti with
      | inl e => (inl e, seq)
      | inr ti' =>
          if (max_serial <=? seq)%Z then (inl sequence_exhausted, seq)
          else
            let i := (seq + 1)%Z in
            if existsb (has_id i) t then (inl (unique_violation i), i)
            else
              let p := {| id := i; title := ti'; content := co;
                          created_at := now |} in
              (inr (t ++ [p], [post_row p]), i)
      end
  | UpdatePost ti co i =>
      match varchar 200 ti with
      | inl e => (inl e, seq)
      | inr ti' =>
          let t' := map (update_row i ti' co) t in
          (inr (t', map post_row (filter (has_id i) t')), seq)
      end
  | DeletePost i =>
      (inr (filter (fun p => negb (has_id i p)) t,
            map id_row (filter (has_id i) t)), seq)
  end.

(** The state of a psycopg2 connection object.  A connection opens a
    transaction with its first statement; the transaction works on its own
    copy of the table until [commit] publishes it. *)
Inductive transaction : Type :=
| Idle
| InTransaction (t : table)
| Aborted.

Inductive connection : Type :=
| Open (tx : transaction)
| Closed.

Inductive cursor_factory : Type := TupleCursor | RealDictCursor.

(** A cursor: its connection (the index of the connection object), the
    shape of the rows it hands out, and the rows still to be fetched. *)
Record cursor : Type := Cursor {
  cur_conn : nat;
  cur_factory : cursor_factory;
  cur_rows : list row
}.

(** The calls to the driver that change or can fail for reasons outside
    the program (server unreachable, connection lost, ...). *)
Inductive call : Type :=
| Connect       (* psycopg2.connect *)
| Execute       (* cur.execute: the statement does not get through *)
| Commit        (* conn.commit: the commit does not get through *)
| CommitReply.  (* conn.commit: the commit is done, its reply is lost *)

Inductive event : Type :=
| EvConnect (c : nat)
| EvExecute (c : nat) (s : statement)
| EvCommit (c : nat)
| EvClose (c : nat).

End Pg.

Import Pg.

(* ================================================================= *)
(** * The world outside the handlers, and the monad they run in *)

(** What a request finds and cannot decide: the time, whether the server
    fails a call for a reason of its own, and the order the server gives to
    rows that [ORDER BY] leaves tied. *)
Record env : Type := Env {
  now : Z;
  fault : call -> option exn;
  rank : post -> Z
}.

(** The committed table and its sequence, every connection object created so
    far (a connection is named by its index), and the calls made to the
    driver, newest first.  The table is a list whose order is the model's
    own: a handler sees rows in an order only through
    [ORDER BY created_at DESC], where the [rank] of the request decides
    between rows of one time.  A connection object lives as long as the
    frame of the function that created it ([frame], below). *)
Record world : Type := World {
  posts : table;
  posts_id_seq : Z;
  conns : list connection;
  log : list event
}.

Definition M (A : Type) : Type := env -> world -> (exn + A) * world.

Definition ret {A} (a : A) : M A := fun _ w => (inr a, w).


Definition bind {A B} (m : M A) (k : A -> M B) : M B :=
  fun e w =>
    match m e w with
    | (inr a, w') => k a e w'
    | (inl x, w') => (inl x, w')
    end.

(** Calling a function, [body] being its body: when the function returns,
    its frame dies and with it the last references to the objects it
    created and did not hand on.  A connection object that is deallocated
    is closed (what its transaction had not committed is lost).  The
    functions of [app.py] keep their connection and cursor in local
    variables only, so every connection created since the call goes; that
    is also so when a handler returns from its [except] clause, the
    exception it caught being dropped at the end of the clause.  When the
    function raises, the traceback of the exception holds the frame, and
    nothing is deallocated yet. *)
Definition finalize (n : nat) (cs : list connection) : list connection :=
  firstn n cs ++ map (fun _ => Closed) (skipn n cs).

Definition frame {A} (body : M A) : M A :=
  fun e w =>
    match body e w with
    | (inr a, w') =>
        (inr a, {| posts := posts w'; posts_id_seq := posts_id_seq w';
                   conns := finalize (List.length (conns w)) (conns w');
                   log := log w' |})
    | (inl x, w') => (inl x, w')
    end.

(** [try: m except Exception as x: h x] *)
Definition try_except {A} (m : M A) (h : exn -> M A) : M A :=
  fun e w =>
    match m e w with
    | (inr a, w') => (inr a, w')
    | (inl x, w') => h x e w'
    end.

(** A computation on Python values that returns or raises. *)
Definition lift {A} (r : exn + A) : M A := fun _ w => (r, w).

Notation "x <- m ;; k" := (bind m (fun x => k))
  (at level 61, m at next level, right associativity).
Notation "m ;; k" := (bind m (fun _ => k))
  (at level 61, right associativity).

(** ** The driver *)

Fixpoint set_nth {A} (n : nat) (x : A) (l : list A) : list A :=
  match l, n with
  | [], _ => []
  | _ :: l', O => x :: l'
  | y :: l', S n' => y :: set_nth n' x l'
  end.

Definition InterfaceError : exn :=
  Exception "InterfaceError" "connection already closed".

Definition CursorClosed : exn :=
  Exception "InterfaceError" "cursor already closed".

Definition InFailedSqlTransaction : exn :=
  Exception "InFailedSqlTransaction"
    ("current transaction is aborted, commands ignored until end of transaction block"
     ++ newline)%string.

(** [psycopg2.connect(DATABASE_URL)] *)
Definition get_db_connection : M nat :=
  fun e w =>
    match fault e Connect with
    | Some x => (inl x, w)
    | None =>
        let c := List.length (conns w) in
        (inr c, {| posts := posts w; posts_id_seq := posts_id_seq w;
                   conns := conns w ++ [Open Idle];
                   log := EvConnect c :: log w |})
    end.

(** [conn.cursor(cursor_factory=f)] *)
Definition cursor_of (conn : nat) (f : cursor_factory) : M cursor :=
  fun e w =>
    match nth_error (conns w) conn with
    | Some (Open _) => (inr (Cursor conn f []), w)
    | _ => (inl InterfaceError, w)
    end.

(** [cur.execute(s)]: the parameters are adapted first, and an error there
    leaves the connection as it was, nothing having been sent. *)
Definition execute (cur : cursor) (s : statement) : M cursor :=
  fun e w =>
    let c := cur_conn cur in
    let logged := EvExecute c s :: log w in
    match nth_error (conns w) c with
    | Some (Open tx) =>
        match adapt_all (string_parameters s) with
        | Some x =>
            (inl x, {| posts := posts w; posts_id_seq := posts_id_seq w;
                       conns := conns w; log := logged |})
        | None =>
            match tx with
            | Aborted =>
                (inl InFailedSqlTransaction,
                 {| posts := posts w; posts_id_seq := posts_id_seq w;
                    conns := conns w; log := logged |})
            | _ =>
                match fault e Execute with
                | Some x =>
                    (inl x,
                     {| posts := posts w; posts_id_seq := posts_id_seq w;
                        conns := set_nth c (Open Aborted) (conns w);
                        log := logged |})
                | None =>
                    let t :=
                      match tx with InTransaction t => t | _ => posts w end in
                    match run_statement s (now e) (rank e) t (posts_id_seq w)
                    with
                    | (inl x, seq) =>
                        (inl x,
                         {| posts := posts w; posts_id_seq := seq;
                            conns := set_nth c (Open Aborted) (conns w);
                            log := logged |})
                    | (inr (t', rows), seq) =>
                        (inr (Cursor c (cur_factory cur) rows),
                         {| posts := posts w; posts_id_seq := seq;
                            conns :=
                              set_nth c (Open (InTransaction t')) (conns w);
                            log := logged |})
                    end
                end
            end
        end
    | _ => (inl CursorClosed, w)
    end.

(** A row as the cursor hands it out. *)
Definition as_python (f : cursor_factory) (r : row) : pyval :=
  match f with
  | RealDictCursor => PDict (map (fun kv => (py (fst kv), snd kv)) r)
  | TupleCursor => PTuple (map snd r)
  end.

(** [cur.fetchone()]: the next row, or [None] when there is none. *)
Definition fetchone (cur : cursor) : pyval * cursor :=
  match cur_rows cur with
  | [] => (PNone, cur)
  | r :: rest =>
      (as_python (cur_factory cur) r,
       Cursor (cur_conn cur) (cur_factory cur) rest)
  end.

(** [cur.fetchall()] *)
Definition fetchall (cur : cursor) : pyval * cursor :=
  (PList (map (as_python (cur_factory cur)) (cur_rows cur)),
   Cursor (cur_conn cur) (cur_factory cur) []).

(** [cur.close()] *)
Definition cursor_close (cur : cursor) : M unit := ret tt.

(** [conn.commit()]: publishes the transaction's table; on an aborted
    transaction it only ends it.  The call can fail before the server has
    committed, and it can fail after, when the reply does not come back. *)
Definition commit (conn : nat) : M unit :=
  fun e w =>
    let logged := EvCommit conn :: log w in
    match nth_error (conns w) conn with
    | Some (Open tx) =>
        match fault e Commit with
        | Some x =>
            (inl x, {| posts := posts w; posts_id_seq := posts_id_seq w;
                       conns := set_nth conn (Open Aborted) (conns w);
                       log := logged |})
        | None =>
            let committed :=
              {| posts := match tx with InTransaction t => t | _ => posts w end;
                 posts_id_seq := posts_id_seq w;
                 conns := set_nth conn (Open Idle) (conns w);
                 log := logged |} in
            match fault e CommitReply with
            | Some x => (inl x, committed)
            | None => (inr tt, committed)
            end
        end
    | _ => (inl InterfaceError, w)
    end.

(** [conn.close()]: what the transaction did and did not commit is lost. *)
Definition close (conn : nat) : M unit :=
  fun e w =>
    (inr tt, {| posts := posts w; posts_id_seq := posts_id_seq w;
                conns := set_nth conn Closed (conns w);
                log := EvClose conn :: log w |}).

(* ================================================================= *)
(** * The application *)

(** What a handler sees of the request: the outcome of
    [request.get_json()].  With its default arguments the call returns the
    decoded body ([None] for the body [null]) or raises: Flask raises
    [BadRequest] when the body of a JSON request does not decode, and for a
    request that is not declared as JSON it raises [UnsupportedMediaType] or,
    in older versions, returns [None]. *)
Record request : Type := Request { get_json : exn + pyval }.

(** A view returns [jsonify(v), code]. *)
Definition response : Type := pyval * nat.

Definition body (r : response) : pyval := fst r.
Definition status (r : response) : nat := snd r.

Definition jsonify (v : pyval) : pyval := v.

(** [{k: v}] with a string for [v] *)
Definition dict1 (k : string) (v : pystr) : pyval := PDict [(py k, PStr v)].

(** [str(e)] *)
Definition str (x : exn) : pystr := py (exn_str x).

Definition internal_error (x : exn) : M response :=
  ret (jsonify (dict1 "error" (str x)), 500).


Definition health_check : M response :=
  ret (jsonify
         (PDict
            [(py "status", PStr (py "ok"));
             (py "message", PStr (py "Blog API is running"));
             (py "endpoints",
               PDict
                 [(py "GET /api/posts", PStr (py "Get all posts"));
                  (py "POST /api/posts", PStr (py "Create new post"));
                  (py "PUT /api/posts/<id>", PStr (py "Update post"));
                  (py "DELETE /api/posts/<id>", PStr (py "Delete post"))])]),
       200).

Definition get_posts : M response :=
  try_except
    (conn <- get_db_connection ;;
     cur <- cursor_of conn RealDictCursor ;;
     cur <- execute cur SelectPosts ;;
     let '(posts, cur) := fetchall cur in
     cursor_close cur ;;
     close conn ;;
     ret (jsonify posts, 200))
    internal_error.

Definition create_post (request : request) : M response :=
  try_except
    (data <- lift (get_json request) ;;
     if negb (truthy data) then
       ret (jsonify (dict1 "error" (py "No data provided")), 400)
     else
       title <- lift (get data (py "title") (PStr [])) ;;
       title <- lift (strip_method title) ;;
       content <- lift (get data (py "content") (PStr [])) ;;
       content <- lift (strip_method content) ;;
       if negb (truthy (PStr title)) || negb (truthy (PStr content)) then
         ret (jsonify (dict1 "error" (py "Title and content are required")),
              400)
       else if Nat.ltb 200 (List.length title) then
         ret (jsonify (dict1 "error" (py "Title must be <= 200 characters")),
              400)
       else
         conn <- get_db_connection ;;
         cur <- cursor_of conn RealDictCursor ;;
         cur <- execute cur (InsertPost title content) ;;
         let '(new_post, cur) := fetchone cur in
         commit conn ;;
         cursor_close cur ;;
         close conn ;;
         ret (jsonify new_post, 201))
    internal_error.

Definition update_post (id : Z) (request : request) : M response :=
  try_except
    (data <- lift (get_json request) ;;
     if negb (truthy data) then
       ret (jsonify (dict1 "error" (py "No data provided")), 400)
     else
       title <- lift (get data (py "title") (PStr [])) ;;
       title <- lift (strip_method title) ;;
       content <- lift (get data (py "content") (PStr [])) ;;
       content <- lift (strip_method content) ;;
       if negb (truthy (PStr title)) || negb (truthy (PStr content)) then
         ret (jsonify (dict1 "error" (py "Title and content are required")),
              400)
       else
         conn <- get_db_connection ;;
         cur <- cursor_of conn RealDictCursor ;;
         cur <- execute cur (UpdatePost title content id) ;;
         let '(updated_post, cur) := fetchone cur in
         if negb (truthy updated_post) then
           cursor_close cur ;;
           close conn ;;
           ret (jsonify (dict1 "error" (py "Post not found")), 404)
         else
           commit conn ;;
           cursor_close cur ;;
           close conn ;;
           ret (jsonify updated_post, 200))
    internal_error.

Definition delete_post (id : Z) : M response :=
  try_except
    (conn <- get_db_connection ;;
     cur <- cursor_of conn TupleCursor ;;
     cur <- execute cur (DeletePost id) ;;
     let '(deleted, cur) := fetchone cur in
     if negb (truthy deleted) then
       cursor_close cur ;;
       close conn ;;
       ret (jsonify (dict1 "error" (py "Post not found")), 404)
     else
       commit conn ;;
       cursor_close cur ;;
       close conn ;;
       ret (jsonify (dict1 "message" (py "Post deleted successfully")), 200))
    internal_error.

(** ** Routing *)

Inductive route : Type :=
| GET_root
| GET_posts
| POST_posts (request : request)
| PUT_post (id : Z) (request : request)
| DELETE_post (id : Z).

Definition view_of (r : route) : M response :=
  match r with
  | GET_root => health_check
  | GET_posts => get_posts
  | POST_posts rq => create_post rq
  | PUT_post i rq => update_post i rq
  | DELETE_post i => delete_post i
  end.

(** Flask calls the view of the route. *)
Definition dispatch (r : route) : M response := frame (view_of r).

(** Requests served one after the other, each in its own environment. *)
Fixpoint serve (rs : list (route * env)) (w : world)
  : list (exn + response) * world :=
  match rs with
  | [] => ([], w)
  | (r, e) :: rs' =>
      let '(out, w') := dispatch r e w in
      let '(outs, w'') := serve rs' w' in
      (out :: outs, w'')
  end.

(** A new database, on which nothing has run yet but the creation of the
    table. *)
Definition new_world : world :=
  {| posts := []; posts_id_seq := 0; conns := []; log := [] |}.

(* ================================================================= *)
(** * The notions of the specification *)

(** The storage layer answers every call of the request. *)
Definition storage_ok (e : env) : Prop := forall c, fault e c = None.

(** A string the driver can send: it holds no NUL character and no
    surrogate. *)
Definition sendable (s : pystr) : Prop :=
  forallb (fun c => negb (N.eqb 0 c) && negb (surrogate c)) s = true.

(** The data-model invariant of one row: title and content are stored
    stripped and are not empty, and the title has at most 200 characters. *)
Definition valid_post (p : post) : Prop :=
  strip (title p) = title p /\ title p <> [] /\
  List.length (title p) <= 200 /\
  strip (content p) = content p /\ content p <> [].

(** The invariant of the table: every row is valid, every [id] was handed
    out by the sequence, and [id] is a key. *)
Record db_invariant (w : world) : Prop := {
  inv_valid : Forall valid_post (posts w);
  inv_seq : Forall (fun p => (id p <= posts_id_seq w)%Z) (posts w);
  inv_key : NoDup (map id (posts w))
}.

(** The JSON object of a post, and the two other bodies of the API. *)
Definition post_json (p : post) : pyval :=
  PDict [(py "id", PInt (id p)); (py "title", PStr (title p));
         (py "content", PStr (content p));
         (py "created_at", PDatetime (created_at p))].

Definition error_json (msg : string) : pyval := dict1 "error" (py msg).

Definition message_json (msg : string) : pyval := dict1 "message" (py msg).

(** What the checks at the head of [create_post] and [update_post] make of a
    request, before any call to the storage layer.  [limit] tells whether
    the length of the title is checked, which [create_post] does and
    [update_post] does not. *)
Inductive validation : Type :=
| Crashed (x : exn)
| NoData
| Required
| TooLong
| Accepted (title content : pystr).

Definition validate (limit : bool) (rq : request) : validation :=
  match get_json rq with
  | inl x => Crashed x
  | inr data =>
      if negb (truthy data) then NoData
      else
        match get data (py "title") (PStr []) with
        | inl x => Crashed x
        | inr tv =>
            match strip_method tv with
            | inl x => Crashed x
            | inr t =>
                match get data (py "content") (PStr []) with
                | inl x => Crashed x
                | inr cv =>
                    match strip_method cv with
                    | inl x => Crashed x
                    | inr c =>
                        if negb (truthy (PStr t)) || negb (truthy (PStr c))
                        then Required
                        else if limit && Nat.ltb 200 (List.length t)
                             then TooLong
                             else Accepted t c
                    end
                end
            end
        end
  end.

(** The status of what a handler hands back to Flask. *)
Definition status_of (out : exn + response) : option nat :=
  match out with
  | inr r => Some (status r)
  | inl _ => None
  end.

(** The [id] a response announces as newly created, if it does. *)
Definition created_id (out : exn + response) : list Z :=
  match out with
  | inr r =>
      if Nat.eqb (status r) 201 then
        match body r with
        | PDict d =>
            match dict_lookup d (py "id") with
            | Some (PInt i) => [i]
            | _ => []
            end
        | _ => []
        end
      else []
  | inl _ => []
  end.

(** An event other than a commit. *)
Definition no_commit (ev : event) : Prop :=
  match ev with
  | EvCommit _ => False
  | _ => True
  end.

(** Newest first: descending [created_at]. *)
Definition newer_first (p q : post) : Prop := (created_at q <= created_at p)%Z.

(** ** Sample data *)

Definition quiet (t : Z) : env :=
  {| now := t; fault := fun _ => None; rank := fun _ => 0%Z |}.

Definition json_post (t c : pystr) : request :=
  Request (inr (PDict [(py "title", PStr t); (py "content", PStr c)])).

Definition hello : post :=
  {| id := 1; title := py "Hello"; content := py "First post";
     created_at := 1000 |}.

Definition one_post : world :=
  {| posts := [hello]; posts_id_seq := 1; conns := []; log := [] |}.

Definition second : post :=
  {| id := 2; title := py "Second"; content := py "More text";
     created_at := 2000 |}.

Definition two_posts : world :=
  {| posts := [hello; second]; posts_id_seq := 2; conns := []; log := [] |}.

(** A table whose sequence has handed out its last value. *)
Definition exhausted : world :=
  {| posts := [hello]; posts_id_seq := max_serial; conns := []; log := [] |}.

(** The exception Flask raises from [get_json] for a body that does not
    decode. *)
Definition BadRequest : exn :=
  Exception "BadRequest"
    "400 Bad Request: The browser (or proxy) sent a request that this server could not understand.".

(** ** The storage half of a request, in closed form

    Every handler that reaches the storage layer connects, opens a cursor,
    executes one statement and looks at the first row; then it either
    commits and closes, or closes at once.  [decide] is that choice, with
    the response that goes with it; an exception at any point becomes the
    500 response of [internal_error], and nothing after it runs.  The
    lemmas [create_post_view], [update_post_view] and [delete_post_view]
    show that the bodies of the handlers do exactly this; the world is the
    one at their [return], before the frame of the handler dies. *)

Definition failed (x : exn) : response := (dict1 "error" (str x), 500).

Definition storage_outcome (f : cursor_factory) (s : statement)
    (decide : pyval -> bool * response) (e : env) (w : world)
  : (exn + response) * world :=
  let n := List.length (conns w) in
  let evs := EvExecute n s :: EvConnect n :: log w in
  match fault e Connect with
  | Some x => (inr (failed x), w)
  | None =>
      match adapt_all (string_parameters s) with
      | Some x =>
          (inr (failed x),
           World (posts w) (posts_id_seq w) (conns w ++ [Open Idle]) evs)
      | None =>
          match fault e Execute with
          | Some x =>
              (inr (failed x),
               World (posts w) (posts_id_seq w) (conns w ++ [Open Aborted])
                 evs)
          | None =>
              match
                run_statement s (now e) (rank e) (posts w) (posts_id_seq w)
              with
              | (inl x, seq) =>
                  (inr (failed x),
                   World (posts w) seq (conns w ++ [Open Aborted]) evs)
              | (inr (t', rows), seq) =>
                  let '(commits, r) :=
                    decide (fst (fetchone (Cursor n f rows))) in
                  if commits : bool then
                    match fault e Commit with
                    | Some x =>
                        (inr (failed x),
                         World (posts w) seq (conns w ++ [Open Aborted])
                           (EvCommit n :: evs))
                    | None =>
                        match fault e CommitReply with
                        | Some x =>
                            (inr (failed x),
                             World t' seq (conns w ++ [Open Idle])
                               (EvCommit n :: evs))
                        | None =>
                            (inr r,
                             World t' seq (conns w ++ [Closed])
                               (EvClose n :: EvCommit n :: evs))
                        end
                    end
                  else
                    (inr r,
                     World (posts w) seq (conns w ++ [Closed])
                       (EvClose n :: evs))
              end
          end
      end
  end.

Definition decide_create (v : pyval) : bool * response := (true, (v, 201)).

Definition decide_update (v : pyval) : bool * response :=
  if negb (truthy v) then (false, (error_json "Post not found", 404))
  else (true, (v, 200)).

Definition decide_delete (v : pyval) : bool * response :=
  if negb (truthy v) then (false, (error_json "Post not found", 404))
  else (true, (message_json "Post deleted successfully", 200)).

(** What a handler does once its request is validated. *)
Definition validated (v : validation) (w : world)
    (store : pystr -> pystr -> (exn + response) * world)
  : (exn + response) * world :=
  match v with
  | Crashed x => (inr (failed x), w)
  | NoData => (inr (error_json "No data provided", 400), w)
  | Required => (inr (error_json "Title and content are required", 400), w)
  | TooLong => (inr (error_json "Title must be <= 200 characters", 400), w)
  | Accepted t c => store t c
  end.

(** A field of a JSON object that is a string or is not there. *)
Definition string_or_missing (d : list (pystr * pyval)) (k : pystr) : Prop :=
  match dict_lookup d k with
  | None | Some (PStr _) => True
  | Some _ => False
  end.

(** How an update of the post [i] relates a row before to the row after. *)
Definition updated_row (i : Z) (t c : pystr) (old new : post) : Prop :=
  id new = id old /\ created_at new = created_at old /\
  (id old = i -> title new = t /\ content new = c) /\
  (id old <> i -> new = old).

(** The statements the handlers send have stripped, non-empty strings. *)
Definition statement_ok (s : statement) : Prop :=
  match s with
  | InsertPost t c | UpdatePost t c _ =>
      strip t = t /\ t <> [] /\ strip c = c /\ c <> []
  | CreatePosts | SelectPosts | DeletePost _ => True
  end.

(** The [id]s the responses of a run announce as created, oldest first. *)
Definition created_ids (outs : list (exn + response)) : list Z :=
  flat_map created_id outs.

(** What one request served in the world [w] may do: it keeps the
    invariant, does not take the sequence back, and announces at most one
    new [id], which the sequence had not handed out before. *)
Definition step_ok (w : world) (r : (exn + response) * world) : Prop :=
  db_invariant (snd r) /\
  (posts_id_seq w <= posts_id_seq (snd r))%Z /\
  (created_id (fst r) = [] \/
   exists i, created_id (fst r) = [i] /\
             (posts_id_seq w < i <= posts_id_seq (snd r))%Z).
(** ** Further notions *)

(** The statuses a route can answer with. *)
Definition statuses (r : route) : list nat :=
  match r with
  | GET_root => [200]
  | GET_posts => [200; 500]
  | POST_posts _ => [201; 400; 500]
  | PUT_post _ _ => [200; 400; 404; 500]
  | DELETE_post _ => [200; 404; 500]
  end.

(** A string of whitespace only (the empty string included). *)
Definition blank (s : pystr) : Prop := forallb isspace s = true.

(** A value that is no [str], and a value that is no [dict]. *)
Definition not_str (v : pyval) : Prop :=
  match v with PStr _ => False | _ => True end.

Definition not_dict (v : pyval) : Prop :=
  match v with PDict _ => False | _ => True end.

(** An environment in which the database server cannot be reached. *)
Definition unreachable : env :=
  {| now := 0;
     fault := fun c =>
       match c with
       | Connect => Some (Exception "OperationalError" "connection refused")
       | _ => None
       end;
     rank := fun _ => 0%Z |}.

(* ================================================================= *)
(** * Properties of the string operations *)

Section Strings.

Lemma lstrip_head (s : pystr) (c : N) (r : pystr) :
  lstrip s = c :: r -> isspace c = false.
Proof.
  induction s as [|a s IH]; simpl; [discriminate|].
  destruct (isspace a) eqn:Ha; auto.
  intros E; injection E as <- _; exact Ha.
Qed.

Lemma lstrip_fixed (c : N) (r : pystr) :
  isspace c = false -> lstrip (c :: r) = c :: r.
Proof. intros H; simpl; now rewrite H. Qed.

(** [lstrip] drops a prefix. *)
Lemma lstrip_suffix (s : pystr) : exists pre, s = pre ++ lstrip s.
Proof.
  induction s as [|a s [pre IH]]; simpl.
  - now exists [].
  - destruct (isspace a).
    + exists (a :: pre); simpl; now f_equal.
    + now exists [].
Qed.

(** [rstrip] drops a suffix, and what is left does not end in a space. *)
Lemma rstrip_prefix (s : pystr) : exists suf, s = rstrip s ++ suf.
Proof.
  unfold rstrip.
  destruct (lstrip_suffix (rev s)) as [pre E].
  exists (rev pre).
  rewrite <- rev_app_distr, <- E; symmetry; apply rev_involutive.
Qed.

Lemma rstrip_last (s body : pystr) (c : N) :
  rstrip s = body ++ [c] -> isspace c = false.
Proof.
  unfold rstrip; intros E.
  apply (f_equal (@rev N)) in E.
  rewrite rev_involutive, rev_app_distr in E; simpl in E.
  exact (lstrip_head _ _ _ E).
Qed.

Lemma rstrip_fixed (body : pystr) (c : N) :
  isspace c = false -> rstrip (body ++ [c]) = body ++ [c].
Proof.
  intros H; unfold rstrip.
  rewrite rev_app_distr; simpl; rewrite H; simpl.
  now rewrite rev_involutive.
Qed.

Lemma strip_head (s : pystr) (c : N) (r : pystr) :
  strip s = c :: r -> isspace c = false.
Proof.
  unfold strip; intros E.
  destruct (rstrip_prefix (lstrip s)) as [suf P].
  rewrite E in P; simpl in P.
  exact (lstrip_head _ _ _ P).
Qed.

Lemma strip_last (s body : pystr) (c : N) :
  strip s = body ++ [c] -> isspace c = false.
Proof. unfold strip; apply rstrip_last. Qed.

(** A string that is stripped stays as it is when stripped again. *)
Lemma strip_idempotent (s : pystr) : strip (strip s) = strip s.
Proof.
  destruct (strip s) as [|c r] eqn:E; [reflexivity|].
  pose proof (strip_head _ _ _ E) as Hc.
  unfold strip at 1; rewrite (lstrip_fixed _ _ Hc).
  destruct (@exists_last _ (c :: r)) as (body & z & L); [discriminate|].
  rewrite L; apply rstrip_fixed.
  apply (strip_last s body); congruence.
Qed.

Lemma truthy_str (s : pystr) : truthy (PStr s) = true <-> s <> [].
Proof.
  destruct s; simpl; split; intros; try congruence; try discriminate; auto.
Qed.

(** A stripped string longer than the column is refused: what exceeds the
    column ends in a character that is no space. *)
Lemma varchar_strip (n : nat) (s v : pystr) :
  varchar n (strip s) = inr v -> v = strip s /\ List.length v <= n.
Proof.
  unfold varchar.
  destruct (Nat.leb (List.length (strip s)) n) eqn:L.
  - intros E; injection E as <-; split; [reflexivity|now apply Nat.leb_le].
  - apply Nat.leb_gt in L.
    destruct (forallb (N.eqb 32) (skipn n (strip s))) eqn:F; [|discriminate].
    exfalso.
    destruct (@exists_last _ (strip s)) as (b & c & E).
    { intros Z; rewrite Z in L; simpl in L; lia. }
    pose proof (strip_last s _ _ E) as Hc.
    rewrite E in F, L; rewrite length_app in L; simpl in L.
    rewrite skipn_app, forallb_app in F.
    replace (n - List.length b) with 0 in F by lia; cbn [skipn forallb] in F.
    apply andb_true_iff in F as [_ F].
    rewrite andb_true_r in F; apply N.eqb_eq in F; subst c.
    discriminate.
Qed.

Lemma varchar_fits (n : nat) (s : pystr) :
  List.length s <= n -> varchar n s = inr s.
Proof. intros H; unfold varchar; apply Nat.leb_le in H; now rewrite H. Qed.

End Strings.

(* ================================================================= *)
(** * Properties of the driver *)

Section Driver.

Lemma nth_error_fresh {A} (l : list A) (x : A) :
  nth_error (l ++ [x]) (List.length l) = Some x.
Proof. induction l; simpl; auto. Qed.

Lemma set_nth_fresh {A} (l : list A) (x y : A) :
  set_nth (List.length l) y (l ++ [x]) = l ++ [y].
Proof. induction l; simpl; [reflexivity|now f_equal]. Qed.

Lemma finalize_same (l : list connection) :
  finalize (List.length l) l = l.
Proof.
  unfold finalize; rewrite firstn_all, skipn_all; apply app_nil_r.
Qed.

Lemma finalize_fresh (l : list connection) (x : connection) :
  finalize (List.length l) (l ++ [x]) = l ++ [Closed].
Proof.
  unfold finalize.
  rewrite firstn_app, firstn_all, Nat.sub_diag, skipn_app, skipn_all,
    Nat.sub_diag.
  cbn; now rewrite app_nil_r.
Qed.

(** What the death of the frame leaves as it is: the result, the table,
    the sequence and the log. *)
Lemma frame_result {A} (m : M A) (e : env) (w : world) :
  fst (frame m e w) = fst (m e w) /\
  posts (snd (frame m e w)) = posts (snd (m e w)) /\
  posts_id_seq (snd (frame m e w)) = posts_id_seq (snd (m e w)) /\
  log (snd (frame m e w)) = log (snd (m e w)).
Proof. unfold frame; destruct (m e w) as [[x|a] w']; repeat split. Qed.

Lemma frame_conns {A} (m : M A) (e : env) (w : world) (a : A) :
  fst (m e w) = inr a ->
  conns (snd (frame m e w)) =
  finalize (List.length (conns w)) (conns (snd (m e w))).
Proof.
  unfold frame; destruct (m e w) as [[x|b] w']; [discriminate|reflexivity].
Qed.

Variable e : env.
Variable w : world.

(** A request's three first calls: connect, open a cursor, execute one
    statement in the new connection's first transaction. *)
Lemma connect_execute {A} (f : cursor_factory) (s : statement)
    (k : nat -> cursor -> M A) :
  (conn <- get_db_connection ;;
   cur <- cursor_of conn f ;;
   cur <- execute cur s ;;
   k conn cur) e w =
  let c := List.length (conns w) in
  let logged := EvExecute c s :: EvConnect c :: log w in
  match fault e Connect with
  | Some x => (inl x, w)
  | None =>
      match adapt_all (string_parameters s) with
      | Some x =>
          (inl x, {| posts := posts w; posts_id_seq := posts_id_seq w;
                     conns := conns w ++ [Open Idle]; log := logged |})
      | None =>
          match fault e Execute with
          | Some x =>
              (inl x, {| posts := posts w; posts_id_seq := posts_id_seq w;
                         conns := conns w ++ [Open Aborted];
                         log := logged |})
          | None =>
              match
                run_statement s (now e) (rank e) (posts w) (posts_id_seq w)
              with
              | (inl x, seq) =>
                  (inl x, {| posts := posts w; posts_id_seq := seq;
                             conns := conns w ++ [Open Aborted];
                             log := logged |})
              | (inr (t', rows), seq) =>
                  k c (Cursor c f rows) e
                    {| posts := posts w; posts_id_seq := seq;
                       conns := conns w ++ [Open (InTransaction t')];
                       log := logged |}
              end
          end
      end
  end.
Proof.
  unfold bind, get_db_connection.
  destruct (fault e Connect); [reflexivity|].
  unfold cursor_of; cbn; rewrite nth_error_fresh.
  unfold execute; cbn; rewrite nth_error_fresh.
  destruct (adapt_all (string_parameters s)); [reflexivity|].
  destruct (fault e Execute); cbn; [now rewrite set_nth_fresh|].
  destruct (run_statement s (now e) (rank e) (posts w) (posts_id_seq w))
    as [[x|[t' rows]] seq]; cbn; now rewrite set_nth_fresh.
Qed.

End Driver.

Section DriverEnd.

Variable e : env.
Variables (t : table) (seq : Z) (l : list connection) (evs : list event).

(** The end of a request that commits, from the state its statement left. *)
Lemma commit_close (t' : table) (cur : cursor) (r : response) :
  (commit (List.length l) ;;
   cursor_close cur ;;
   close (List.length l) ;;
   ret r) e
    {| posts := t; posts_id_seq := seq;
       conns := l ++ [Open (InTransaction t')]; log := evs |} =
  match fault e Commit with
  | Some x =>
      (inl x, {| posts := t; posts_id_seq := seq;
                 conns := l ++ [Open Aborted];
                 log := EvCommit (List.length l) :: evs |})
  | None =>
      match fault e CommitReply with
      | Some x =>
          (inl x, {| posts := t'; posts_id_seq := seq;
                     conns := l ++ [Open Idle];
                     log := EvCommit (List.length l) :: evs |})
      | None =>
          (inr r, {| posts := t'; posts_id_seq := seq;
                     conns := l ++ [Closed];
                     log := EvClose (List.length l)
                            :: EvCommit (List.length l) :: evs |})
      end
  end.
Proof.
  unfold bind, commit; cbn; rewrite nth_error_fresh.
  destruct (fault e Commit); cbn; [now rewrite !set_nth_fresh|].
  destruct (fault e CommitReply); cbn; now rewrite !set_nth_fresh.
Qed.

(** The end of a request that gives up without committing. *)
Lemma close_only (tx : transaction) (cur : cursor) (r : response) :
  (cursor_close cur ;;
   close (List.length l) ;;
   ret r) e
    {| posts := t; posts_id_seq := seq;
       conns := l ++ [Open tx]; log := evs |} =
  (inr r, {| posts := t; posts_id_seq := seq;
             conns := l ++ [Closed];
             log := EvClose (List.length l) :: evs |}).
Proof. unfold bind, close, cursor_close, ret; cbn; now rewrite set_nth_fresh. Qed.

End DriverEnd.


(* ================================================================= *)
(** * The handlers in closed form *)

Section Views.

Variable e : env.
Variable w : world.

Lemma create_post_view (rq : request) :
  create_post rq e w =
  validated (validate true rq) w
    (fun t c =>
       storage_outcome RealDictCursor (InsertPost t c) decide_create e w).
Proof.
  unfold create_post, validate, validated, try_except.
  unfold bind at 1, lift at 1.
  destruct (get_json rq) as [x|data]; [reflexivity|].
  destruct (negb (truthy data)); [reflexivity|].
  unfold bind at 1, lift at 1.
  destruct (get data (py "title") (PStr [])) as [x|tv]; [reflexivity|].
  unfold bind at 1, lift at 1.
  destruct (strip_method tv) as [x|t]; [reflexivity|].
  unfold bind at 1, lift at 1.
  destruct (get data (py "content") (PStr [])) as [x|cv]; [reflexivity|].
  unfold bind at 1, lift at 1.
  destruct (strip_method cv) as [x|c]; [reflexivity|].
  destruct (negb (truthy (PStr t)) || negb (truthy (PStr c)));
    [reflexivity|].
  cbn [andb].
  destruct (Nat.ltb 200 (List.length t)); [reflexivity|].
  rewrite connect_execute; unfold storage_outcome.
  destruct (fault e Connect); [reflexivity|].
  destruct (adapt_all _); [reflexivity|].
  destruct (fault e Execute); [reflexivity|].
  destruct (run_statement _ _ _ _ _) as [[x|[t' rows]] seq]; [reflexivity|].
  unfold decide_create.
  destruct (fetchone _) as [new_post cur] eqn:F.
  rewrite commit_close; cbn [fst].
  destruct (fault e Commit); [reflexivity|].
  destruct (fault e CommitReply); reflexivity.
Qed.

Lemma update_post_view (i : Z) (rq : request) :
  update_post i rq e w =
  validated (validate false rq) w
    (fun t c =>
       storage_outcome RealDictCursor (UpdatePost t c i) decide_update e w).
Proof.
  unfold update_post, validate, validated, try_except.
  unfold bind at 1, lift at 1.
  destruct (get_json rq) as [x|data]; [reflexivity|].
  destruct (negb (truthy data)); [reflexivity|].
  unfold bind at 1, lift at 1.
  destruct (get data (py "title") (PStr [])) as [x|tv]; [reflexivity|].
  unfold bind at 1, lift at 1.
  destruct (strip_method tv) as [x|t]; [reflexivity|].
  unfold bind at 1, lift at 1.
  destruct (get data (py "content") (PStr [])) as [x|cv]; [reflexivity|].
  unfold bind at 1, lift at 1.
  destruct (strip_method cv) as [x|c]; [reflexivity|].
  destruct (negb (truthy (PStr t)) || negb (truthy (PStr c)));
    [reflexivity|].
  cbn [andb].
  rewrite connect_execute; unfold storage_outcome.
  destruct (fault e Connect); [reflexivity|].
  destruct (adapt_all _); [reflexivity|].
  destruct (fault e Execute); [reflexivity|].
  destruct (run_statement _ _ _ _ _) as [[x|[t' rows]] seq]; [reflexivity|].
  unfold decide_update.
  destruct (fetchone _) as [updated_post cur] eqn:F; cbn [fst].
  destruct (negb (truthy updated_post)).
  - now rewrite close_only.
  - rewrite commit_close; destruct (fault e Commit); [reflexivity|].
    destruct (fault e CommitReply); reflexivity.
Qed.

Lemma delete_post_view (i : Z) :
  delete_post i e w =
  storage_outcome TupleCursor (DeletePost i) decide_delete e w.
Proof.
  unfold delete_post, try_except.
  rewrite connect_execute; unfold storage_outcome.
  destruct (fault e Connect); [reflexivity|].
  cbn [string_parameters adapt_all].
  destruct (fault e Execute); [reflexivity|].
  destruct (run_statement _ _ _ _ _) as [[x|[t' rows]] seq]; [reflexivity|].
  unfold decide_delete.
  destruct (fetchone _) as [deleted cur] eqn:F; cbn [fst].
  destruct (negb (truthy deleted)).
  - now rewrite close_only.
  - rewrite commit_close; destruct (fault e Commit); [reflexivity|].
    destruct (fault e CommitReply); reflexivity.
Qed.

End Views.

Section MoreViews.

Variable e : env.
Variable w : world.

Lemma get_posts_view :
  get_posts e w =
  let n := List.length (conns w) in
  let evs := EvExecute n SelectPosts :: EvConnect n :: log w in
  match fault e Connect with
  | Some x => (inr (failed x), w)
  | None =>
      match fault e Execute with
      | Some x =>
          (inr (failed x),
           World (posts w) (posts_id_seq w) (conns w ++ [Open Aborted]) evs)
      | None =>
          (inr (PList (map post_json
                              (order_by_created_at_desc (rank e) (posts w))),
                200),
           World (posts w) (posts_id_seq w) (conns w ++ [Closed])
             (EvClose n :: evs))
      end
  end.
Proof.
  unfold get_posts, try_except.
  rewrite connect_execute.
  destruct (fault e Connect); [reflexivity|].
  cbn [string_parameters adapt_all].
  destruct (fault e Execute); [reflexivity|].
  cbn [run_statement].
  destruct (fetchall _) as [rows cur] eqn:F.
  rewrite close_only.
  unfold fetchall in F; cbn in F; injection F as <- _.
  now rewrite map_map.
Qed.

End MoreViews.

(* ================================================================= *)
(** * Validation *)

Section Validation.

Variable rq : request.
Variable data : pyval.
Hypothesis body_decoded : get_json rq = inr data.

Lemma validate_falsy (limit : bool) :
  truthy data = false -> validate limit rq = NoData.
Proof. intros F; unfold validate; now rewrite body_decoded, F. Qed.

Lemma validate_fields (limit : bool) (t0 c0 : pystr) :
  truthy data = true ->
  get data (py "title") (PStr []) = inr (PStr t0) ->
  get data (py "content") (PStr []) = inr (PStr c0) ->
  validate limit rq =
  if negb (truthy (PStr (strip t0))) || negb (truthy (PStr (strip c0)))
  then Required
  else if limit && Nat.ltb 200 (List.length (strip t0)) then TooLong
       else Accepted (strip t0) (strip c0).
Proof.
  intros T Ht Hc; unfold validate.
  now rewrite body_decoded, T, Ht, Hc.
Qed.

End Validation.

(** A body with a field that is not empty is a [dict] with an entry. *)
Lemma field_truthy (data : pyval) (k t0 : pystr) :
  get data k (PStr []) = inr (PStr t0) -> strip t0 <> [] ->
  truthy data = true.
Proof.
  destruct data as [| | | | | | |d|]; try discriminate.
  destruct d as [|kv d]; [|reflexivity].
  cbn; intros E; injection E as <-; intros N; now elim N.
Qed.

Lemma not_truthy_str (s : pystr) : negb (truthy (PStr s)) = true <-> s = [].
Proof. destruct s; cbn; split; intros; congruence. Qed.

(* ================================================================= *)
(** * The call of a view *)

(** What the death of the handler's frame leaves as it is. *)
Lemma dispatch_result (r : route) (e : env) (w : world) :
  fst (dispatch r e w) = fst (view_of r e w) /\
  posts (snd (dispatch r e w)) = posts (snd (view_of r e w)) /\
  posts_id_seq (snd (dispatch r e w)) = posts_id_seq (snd (view_of r e w)) /\
  log (snd (dispatch r e w)) = log (snd (view_of r e w)).
Proof. apply frame_result. Qed.

Lemma frame_untouched {A} (m : M A) (e : env) (w : world) (a : A) :
  m e w = (inr a, w) -> frame m e w = (inr a, w).
Proof.
  unfold frame; intros ->; destruct w; cbn [conns posts posts_id_seq log].
  now rewrite finalize_same.
Qed.

Lemma frame_fresh {A} (m : M A) (e : env) (w : world) (a : A)
    (t : table) (seq : Z) (c : connection) (evs : list event) :
  m e w = (inr a, World t seq (conns w ++ [c]) evs) ->
  frame m e w = (inr a, World t seq (conns w ++ [Closed]) evs).
Proof.
  unfold frame; intros ->; cbn [conns posts posts_id_seq log].
  now rewrite finalize_fresh.
Qed.

(** All the ways a request can go: the route, the outcome of validation,
    the parameters the driver can or cannot send, each call that can fail,
    the statement, the row fetched. *)
Ltac view_cases r :=
  destruct r as [| |?rq|?i ?rq|?i]; cbn [view_of];
  [ unfold health_check, ret
  | rewrite get_posts_view
  | rewrite create_post_view;
    destruct (validate true _) as [?x| | | |?t ?c]; cbn [validated]
  | rewrite update_post_view;
    destruct (validate false _) as [?x| | | |?t ?c]; cbn [validated]
  | rewrite delete_post_view ];
  unfold storage_outcome, decide_create, decide_update, decide_delete;
  try change (adapt_all (string_parameters (DeletePost _))) with (@None exn);
  cbv iota;
  repeat match goal with
    | |- context [fault ?e ?c] => destruct (fault e c) eqn:?
    | |- context [adapt_all ?p] => destruct (adapt_all p)
    | |- context [run_statement ?s ?n ?k ?t ?q] =>
        destruct (run_statement s n k t q) as [[?x|[?t' ?rows]] ?seq]
    | |- context [negb (truthy ?v)] => destruct (negb (truthy v))
    end.

Ltac request_cases r :=
  unfold dispatch, frame; view_cases r;
  cbn [fst snd posts posts_id_seq conns log status_of status body];
  rewrite ?finalize_fresh, ?finalize_same.

(* ================================================================= *)
(** * Rejected requests *)

(** C9: a create or update request whose body decodes to a falsy JSON
    value (the empty object, the empty array, [false], [0], [null], and
    every other value Python holds for false) is answered 400 with
    "No data provided", not with the message for a missing field. *)
Theorem falsy_body_is_no_data
    (rq : request) (data : pyval) (i : Z) (e : env) (w : world) :
  get_json rq = inr data ->
  truthy data = false ->
  create_post rq e w = (inr (error_json "No data provided", 400), w) /\
  update_post i rq e w = (inr (error_json "No data provided", 400), w).
Proof.
  intros D F.
  rewrite create_post_view, update_post_view.
  now rewrite !(validate_falsy rq data D _ F).
Qed.

Lemma falsy_body_is_no_data_witness :
  Forall
    (fun data =>
       create_post (Request (inr data)) (quiet 0) one_post =
         (inr (error_json "No data provided", 400), one_post) /\
       update_post 1 (Request (inr data)) (quiet 0) one_post =
         (inr (error_json "No data provided", 400), one_post))
    [PDict []; PList []; PBool false; PInt 0; PNone].
Proof.
  pose (at_value := fun (data : pyval) (F : truthy data = false) =>
          falsy_body_is_no_data (Request (inr data)) data 1 (quiet 0)
            one_post eq_refl F).
  repeat (apply Forall_cons; [apply at_value; reflexivity|]).
  apply Forall_nil.
Defined.

(** C2, as the code has it: [create_post] answers 400 "No data provided"
    when [get_json] returns [None] or any other falsy value; otherwise, for
    a JSON object whose title and content (an absent field counting as the
    empty string) are strings, 400 "Title and content are required" when
    either is empty once stripped; otherwise 400 "Title must be <= 200
    characters" when the stripped title is longer than 200.  In particular
    an object that is not empty and lacks title or content, its other field
    being a string or absent, gets "Title and content are required". *)
Theorem create_post_validation_order
    (rq : request) (data : pyval) (e : env) (w : world) :
  get_json rq = inr data ->
  (truthy data = false ->
   create_post rq e w = (inr (error_json "No data provided", 400), w)) /\
  (forall t0 c0 : pystr,
     truthy data = true ->
     get data (py "title") (PStr []) = inr (PStr t0) ->
     get data (py "content") (PStr []) = inr (PStr c0) ->
     (strip t0 = [] \/ strip c0 = [] ->
      create_post rq e w =
        (inr (error_json "Title and content are required", 400), w)) /\
     (strip t0 <> [] -> strip c0 <> [] -> 200 < List.length (strip t0) ->
      create_post rq e w =
        (inr (error_json "Title must be <= 200 characters", 400), w))) /\
  (forall d : list (pystr * pyval),
     data = PDict d -> d <> [] ->
     string_or_missing d (py "title") ->
     string_or_missing d (py "content") ->
     dict_lookup d (py "title") = None \/
     dict_lookup d (py "content") = None ->
     create_post rq e w =
       (inr (error_json "Title and content are required", 400), w)).
Proof.
  intros D; split; [|split].
  - intros F; rewrite create_post_view.
    now rewrite (validate_falsy rq data D _ F).
  - intros t0 c0 T Ht Hc; split.
    + intros E; rewrite create_post_view.
      rewrite (validate_fields rq data D true t0 c0 T Ht Hc).
      destruct E as [E|E]; rewrite E; cbn; [reflexivity|].
      now rewrite orb_true_r.
    + intros Nt Nc L; rewrite create_post_view.
      rewrite (validate_fields rq data D true t0 c0 T Ht Hc).
      apply truthy_str in Nt, Nc; apply Nat.ltb_lt in L.
      now rewrite Nt, Nc, L.
  - intros d -> Nd St Sc M.
    assert (T : truthy (PDict d) = true) by (destruct d; [now elim Nd|reflexivity]).
    unfold string_or_missing in St, Sc.
    rewrite create_post_view.
    destruct (dict_lookup d (py "title")) as [tv|] eqn:Lt;
      destruct (dict_lookup d (py "content")) as [cv|] eqn:Lc;
      try (destruct M; discriminate).
    + destruct tv; try contradiction.
      rewrite (validate_fields rq _ D true s [] T);
        [cbn; now rewrite orb_true_r | unfold get; now rewrite Lt | unfold get; now rewrite Lc].
    + destruct cv; try contradiction.
      rewrite (validate_fields rq _ D true [] s T);
        [reflexivity | unfold get; now rewrite Lt | unfold get; now rewrite Lc].
    + rewrite (validate_fields rq _ D true [] [] T);
        [reflexivity | unfold get; now rewrite Lt | unfold get; now rewrite Lc].
Qed.

Lemma create_post_validation_order_witness :
  create_post (json_post (py "   ") (py "text")) (quiet 0) one_post =
    (inr (error_json "Title and content are required", 400), one_post) /\
  create_post (json_post (repeat 97%N 201) (py "text")) (quiet 0) one_post =
    (inr (error_json "Title must be <= 200 characters", 400), one_post) /\
  create_post (Request (inr (PDict [(py "title", PStr (py "Hi"))])))
    (quiet 0) one_post =
    (inr (error_json "Title and content are required", 400), one_post).
Proof.
  split; [|split].
  - apply (proj1 (proj1 (proj2
      (create_post_validation_order (json_post (py "   ") (py "text")) _
         (quiet 0) one_post eq_refl)) (py "   ") (py "text")
      eq_refl eq_refl eq_refl)).
    left; reflexivity.
  - apply (proj2 (proj1 (proj2
      (create_post_validation_order (json_post (repeat 97%N 201) (py "text"))
         _ (quiet 0) one_post eq_refl)) (repeat 97%N 201) (py "text")
      eq_refl eq_refl eq_refl)).
    + vm_compute; discriminate.
    + vm_compute; discriminate.
    + vm_compute; lia.
  - apply (proj2 (proj2
      (create_post_validation_order
         (Request (inr (PDict [(py "title", PStr (py "Hi"))]))) _
         (quiet 0) one_post eq_refl)) [(py "title", PStr (py "Hi"))] eq_refl).
    + discriminate.
    + exact I.
    + exact I.
    + right; reflexivity.
Defined.

(** C2 as it is worded fails on the empty object: it is decoded JSON and
    has neither title nor content, and the answer is "No data provided". *)
Lemma create_post_empty_object :
  get_json (Request (inr (PDict []))) = inr (PDict []) /\
  dict_lookup [] (py "title") = None /\
  dict_lookup [] (py "content") = None /\
  create_post (Request (inr (PDict []))) (quiet 0) one_post =
    (inr (error_json "No data provided", 400), one_post) /\
  create_post (Request (inr (PDict []))) (quiet 0) one_post <>
    (inr (error_json "Title and content are required", 400), one_post).
Proof.
  repeat split; try reflexivity.
  vm_compute; discriminate.
Qed.

(* ================================================================= *)
(** * Requests that reach the storage layer *)

Section Storage.

Variable e : env.
Variable w : world.
Hypothesis ok : storage_ok e.

(** With a storage layer that answers, only the statement itself can fail. *)
Lemma storage_outcome_ok (f : cursor_factory) (s : statement)
    (decide : pyval -> bool * response) :
  storage_outcome f s decide e w =
  let n := List.length (conns w) in
  let evs := EvExecute n s :: EvConnect n :: log w in
  match adapt_all (string_parameters s) with
  | Some x =>
      (inr (failed x),
       World (posts w) (posts_id_seq w) (conns w ++ [Open Idle]) evs)
  | None =>
      match run_statement s (now e) (rank e) (posts w) (posts_id_seq w) with
      | (inl x, seq) =>
          (inr (failed x),
           World (posts w) seq (conns w ++ [Open Aborted]) evs)
      | (inr (t', rows), seq) =>
          let '(commits, r) := decide (fst (fetchone (Cursor n f rows))) in
          if commits : bool then
            (inr r, World t' seq (conns w ++ [Closed])
                      (EvClose n :: EvCommit n :: evs))
          else
            (inr r, World (posts w) seq (conns w ++ [Closed])
                      (EvClose n :: evs))
      end
  end.
Proof.
  unfold storage_outcome; rewrite !ok.
  destruct (adapt_all _); [reflexivity|].
  destruct (run_statement _ _ _ _ _) as [[x|[t' rows]] seq]; [reflexivity|].
  cbv zeta; destruct (decide _) as [[|] r]; reflexivity.
Qed.

End Storage.

(** The driver sends the strings that are [sendable]. *)
Lemma encode_sendable (s : pystr) (pos : nat) :
  sendable s -> encode_error pos s = None.
Proof.
  unfold sendable; revert pos; induction s as [|c s IH]; intros pos;
    cbn [forallb encode_error]; [reflexivity|].
  intros H; apply andb_true_iff in H as [H1 H2].
  apply andb_true_iff in H1 as [_ H1]; apply negb_true_iff in H1.
  rewrite H1; now apply IH.
Qed.

Lemma adapt_sendable (s : pystr) : sendable s -> adapt s = None.
Proof.
  intros H; unfold adapt; rewrite (encode_sendable s 0 H).
  assert (E : existsb (N.eqb 0) s = false); [|now rewrite E].
  unfold sendable in H; induction s as [|c s IH]; cbn in *; [reflexivity|].
  apply andb_true_iff in H as [H1 H2].
  apply andb_true_iff in H1 as [H1 _]; apply negb_true_iff in H1.
  rewrite H1; now apply IH.
Qed.

Lemma adapt_fields (t c : pystr) :
  sendable t -> sendable c -> adapt_all [t; c] = None.
Proof.
  intros Ht Hc; cbn; now rewrite (adapt_sendable t Ht), (adapt_sendable c Hc).
Qed.

Lemma fresh_id (t : table) (seq : Z) :
  Forall (fun p => (id p <= seq)%Z) t ->
  existsb (has_id (seq + 1)) t = false.
Proof.
  induction 1 as [|p t Hp _ IH]; cbn; [reflexivity|].
  rewrite IH, orb_false_r; unfold has_id; apply Z.eqb_neq; lia.
Qed.

(** A body with string fields that are not empty once stripped is
    accepted; [limit] adds the bound on the title. *)
Lemma validate_accepted (limit : bool) (rq : request) (data : pyval)
    (t0 c0 : pystr) :
  get_json rq = inr data ->
  get data (py "title") (PStr []) = inr (PStr t0) ->
  get data (py "content") (PStr []) = inr (PStr c0) ->
  strip t0 <> [] -> strip c0 <> [] ->
  (limit = true -> List.length (strip t0) <= 200) ->
  validate limit rq = Accepted (strip t0) (strip c0).
Proof.
  intros D Ht Hc Nt Nc L.
  rewrite (validate_fields rq data D limit t0 c0
             (field_truthy data _ _ Ht Nt) Ht Hc).
  apply truthy_str in Nt, Nc; rewrite Nt, Nc; cbn [negb orb].
  destruct limit; [|reflexivity].
  specialize (L eq_refl); apply Nat.ltb_ge in L; now rewrite L.
Qed.

(** C1, as the code has it: a create request whose JSON body has a title
    and a content that are not empty once stripped, that hold no NUL
    character and no surrogate, the stripped title having at most 200
    characters, inserts exactly one row while the sequence of [id] has
    values left; the row holds the stripped title and content, the next
    [id] of the sequence and the time of the request, and the answer is
    201 with that row as JSON.  (The storage layer answers its calls, and
    the table is as the application keeps it.) *)
Theorem create_post_inserts
    (rq : request) (data : pyval) (t0 c0 : pystr) (e : env) (w : world) :
  storage_ok e ->
  db_invariant w ->
  (posts_id_seq w < max_serial)%Z ->
  get_json rq = inr data ->
  get data (py "title") (PStr []) = inr (PStr t0) ->
  get data (py "content") (PStr []) = inr (PStr c0) ->
  strip t0 <> [] ->
  strip c0 <> [] ->
  List.length (strip t0) <= 200 ->
  sendable (strip t0) ->
  sendable (strip c0) ->
  let p := {| id := posts_id_seq w + 1; title := strip t0;
              content := strip c0; created_at := now e |} in
  exists w',
    create_post rq e w = (inr (post_json p, 201), w') /\
    posts w' = posts w ++ [p].
Proof.
  intros ok inv Q D Ht Hc Nt Nc L St Sc p.
  rewrite create_post_view.
  rewrite (validate_accepted true rq data t0 c0 D Ht Hc Nt Nc (fun _ => L)).
  cbn [validated]; rewrite (storage_outcome_ok e w ok).
  cbn [string_parameters]; rewrite (adapt_fields _ _ St Sc).
  cbn [run_statement].
  rewrite (varchar_fits 200 _ L), (fresh_id _ _ (inv_seq w inv)).
  apply Z.leb_gt in Q; rewrite Q.
  eexists; split; reflexivity.
Qed.

Lemma one_post_invariant : db_invariant one_post.
Proof.
  split; cbn.
  - repeat constructor; vm_compute; congruence.
  - repeat constructor; vm_compute; congruence.
  - repeat constructor; cbn; tauto.
Defined.

Lemma quiet_ok (t : Z) : storage_ok (quiet t).
Proof. intros c; reflexivity. Defined.

Lemma create_post_inserts_witness :
  exists w',
    create_post (json_post (py "  Second ") (py " More text ")) (quiet 2000)
      one_post =
      (inr (post_json {| id := 2; title := py "Second";
                         content := py "More text"; created_at := 2000 |},
            201), w') /\
    posts w' = [hello; {| id := 2; title := py "Second";
                          content := py "More text"; created_at := 2000 |}].
Proof.
  apply (create_post_inserts
           (json_post (py "  Second ") (py " More text ")) _
           (py "  Second ") (py " More text ") (quiet 2000) one_post
           (quiet_ok 2000) one_post_invariant eq_refl eq_refl eq_refl
           eq_refl).
  - vm_compute; discriminate.
  - vm_compute; discriminate.
  - vm_compute; lia.
  - reflexivity.
  - reflexivity.
Defined.

(** C1 as it is worded fails in three ways, each with a title and a
    content that are not empty once stripped and a title of at most 200
    characters, and each time no row is inserted and the answer is 500: a
    title that holds a NUL character, which the driver refuses to send; a
    content that holds a lone surrogate (the JSON body
    [{"title": "Title", "content": "h\ud800"}]), which the driver cannot
    encode; and a sequence that has handed out its last value. *)
Lemma create_post_not_stored :
  (strip [97; 0; 98]%N <> [] /\
   strip (py "text") <> [] /\
   List.length (strip [97; 0; 98]%N) <= 200 /\
   exists w',
     create_post (json_post [97; 0; 98]%N (py "text")) (quiet 2000) one_post =
       (inr (error_json
               "A string literal cannot contain NUL (0x00) characters.", 500),
        w') /\
     posts w' = posts one_post) /\
  (strip (py "Title") <> [] /\
   strip [104; 55296]%N <> [] /\
   List.length (strip (py "Title")) <= 200 /\
   exists w',
     create_post (json_post (py "Title") [104; 55296]%N) (quiet 2000)
       one_post =
       (inr (error_json
               "'utf-8' codec can't encode character '\ud800' in position 1: surrogates not allowed",
             500), w') /\
     posts w' = posts one_post) /\
  (strip (py "Title") <> [] /\
   strip (py "text") <> [] /\
   List.length (strip (py "Title")) <= 200 /\
   exists w',
     create_post (json_post (py "Title") (py "text")) (quiet 2000) exhausted =
       (inr (dict1 "error" (str sequence_exhausted), 500), w') /\
     posts w' = posts exhausted).
Proof.
  repeat split; try (vm_compute; discriminate); try (vm_compute; lia);
    eexists; split; vm_compute; reflexivity.
Qed.

(* ================================================================= *)
(** * Listing *)

Section Ordering.

Variable rank : post -> Z.

Lemma insert_desc_perm (p : post) (l : list post) :
  Permutation (insert_desc rank p l) (p :: l).
Proof.
  induction l as [|q l IH]; cbn; [reflexivity|].
  destruct (precedes rank q p); [|reflexivity].
  rewrite IH; apply perm_swap.
Qed.

Lemma order_by_perm (l : list post) :
  Permutation (order_by_created_at_desc rank l) l.
Proof.
  induction l as [|p l IH]; cbn; [reflexivity|].
  rewrite insert_desc_perm; now constructor.
Qed.

(** Whatever the rank, a row that [precedes] another is not older. *)
Lemma precedes_newer (p q : post) :
  precedes rank p q = true -> newer_first p q.
Proof.
  unfold precedes, newer_first; intros H.
  apply orb_true_iff in H as [H|H]; [apply Z.ltb_lt in H; lia|].
  apply andb_true_iff in H as [H _]; apply Z.eqb_eq in H; lia.
Qed.

Lemma not_precedes_newer (p q : post) :
  precedes rank p q = false -> newer_first q p.
Proof.
  unfold precedes, newer_first; intros H.
  apply orb_false_iff in H as [H _]; apply Z.ltb_ge in H; exact H.
Qed.

Lemma insert_desc_hd (p a : post) (l : list post) :
  newer_first a p -> HdRel newer_first a l ->
  HdRel newer_first a (insert_desc rank p l).
Proof.
  intros Hp H; destruct l as [|q l]; cbn; [now constructor|].
  destruct (precedes rank q p); constructor; auto.
  now inversion H.
Qed.

Lemma insert_desc_sorted (p : post) (l : list post) :
  Sorted newer_first l -> Sorted newer_first (insert_desc rank p l).
Proof.
  induction 1 as [|q l S IH H]; cbn; [repeat constructor|].
  destruct (precedes rank q p) eqn:C.
  - constructor; [exact IH|].
    apply insert_desc_hd; [now apply precedes_newer|exact H].
  - repeat constructor; auto; now apply not_precedes_newer.
Qed.

Lemma order_by_sorted (l : list post) :
  StronglySorted newer_first (order_by_created_at_desc rank l).
Proof.
  apply Sorted_StronglySorted.
  - intros a b c; unfold newer_first; lia.
  - induction l; cbn; [constructor|now apply insert_desc_sorted].
Qed.

End Ordering.

(** C5: whatever the table holds, listing answers 200 with a JSON array of
    all its rows, each with [id], [title], [content] and [created_at],
    newest first; for the empty table the array is empty.  (The storage
    layer answers its calls.) *)
Theorem get_posts_lists_all (e : env) (w : world) :
  storage_ok e ->
  exists (rows : list post) (w' : world),
    get_posts e w = (inr (PList (map post_json rows), 200), w') /\
    Permutation rows (posts w) /\
    StronglySorted newer_first rows /\
    (posts w = [] -> rows = []) /\
    posts w' = posts w.
Proof.
  intros ok; rewrite get_posts_view, !ok.
  exists (order_by_created_at_desc (rank e) (posts w)); eexists.
  split; [reflexivity|].
  split; [apply order_by_perm|].
  split; [apply order_by_sorted|].
  split; [now intros ->|reflexivity].
Qed.

Lemma get_posts_lists_all_witness :
  exists (rows : list post) (w' : world),
    get_posts (quiet 0) one_post = (inr (PList (map post_json rows), 200), w') /\
    Permutation rows (posts one_post) /\
    StronglySorted newer_first rows /\
    (posts one_post = [] -> rows = []) /\
    posts w' = posts one_post.
Proof. exact (get_posts_lists_all (quiet 0) one_post (quiet_ok 0)). Defined.

(* ================================================================= *)
(** * Update and delete *)

Section Rows.

Lemma hd_error_filter {A} (f : A -> bool) (l : list A) :
  hd_error (filter f l) = find f l.
Proof. induction l as [|a l IH]; cbn; [reflexivity|]. now destruct (f a). Qed.

Lemma hd_error_map {A B} (f : A -> B) (l : list A) :
  hd_error (map f l) = option_map f (hd_error l).
Proof. now destruct l. Qed.

Lemma fetchone_first (n : nat) (f : cursor_factory) (rows : list row) :
  fst (fetchone (Cursor n f rows)) =
  match hd_error rows with
  | None => PNone
  | Some r => as_python f r
  end.
Proof. now destruct rows. Qed.

Variable i : Z.
Variables t c : pystr.

Lemma filter_updated (l : list post) :
  filter (has_id i) (map (update_row i t c) l) =
  map (set_title_content t c) (filter (has_id i) l).
Proof.
  induction l as [|p l IH]; cbn [map filter]; [reflexivity|].
  destruct (has_id i p) eqn:H.
  - assert (U : update_row i t c p = set_title_content t c p)
      by (unfold update_row; now rewrite H).
    rewrite U.
    change (has_id i (set_title_content t c p)) with (has_id i p).
    rewrite H; cbn [map]; now f_equal.
  - assert (U : update_row i t c p = p) by (unfold update_row; now rewrite H).
    now rewrite U, H.
Qed.

Lemma map_updated (l : list post) :
  Forall2 (updated_row i t c) l (map (update_row i t c) l).
Proof.
  induction l as [|p l IH]; cbn; constructor; [|exact IH].
  unfold update_row, updated_row, has_id.
  destruct (Z.eqb_spec (id p) i); cbn; repeat split; auto; congruence.
Qed.

Lemma map_updated_ids (l : list post) : map id (map (update_row i t c) l) = map id l.
Proof.
  induction l as [|p l IH]; cbn; [reflexivity|]; f_equal; [|exact IH].
  unfold update_row; now destruct (has_id i p).
Qed.

(** Without a row of that [id] the update changes nothing. *)
Lemma map_updated_absent (l : list post) :
  find (has_id i) l = None -> map (update_row i t c) l = l.
Proof.
  induction l as [|p l IH]; cbn; [reflexivity|].
  unfold update_row at 1; destruct (has_id i p); [discriminate|].
  intros H; now rewrite IH.
Qed.

(** [id] being a key, deleting by [id] takes out the one row found. *)
Lemma delete_one (p : post) (l : list post) :
  NoDup (map id l) -> find (has_id i) l = Some p ->
  exists l1 l2, l = l1 ++ p :: l2 /\
                filter (fun q => negb (has_id i q)) l = l1 ++ l2.
Proof.
  induction l as [|q l IH]; cbn; [discriminate|].
  intros N F; inversion_clear N as [|? ? Hq N'].
  destruct (has_id i q) eqn:H; cbn.
  - injection F as ->; exists [], l; split; [reflexivity|]; cbn.
    clear IH N'; induction l as [|r l IH]; cbn; [reflexivity|].
    assert (has_id i r = false) as ->.
    { unfold has_id in *; apply Z.eqb_eq in H; apply Z.eqb_neq.
      intros E; apply Hq; left; congruence. }
    cbn; f_equal; apply IH; intros I; apply Hq; now right.
  - destruct (IH N' F) as (l1 & l2 & -> & E).
    exists (q :: l1), l2; split; [reflexivity|]; cbn; now f_equal.
Qed.

Lemma find_deleted (l : list post) :
  find (has_id i) (filter (fun q => negb (has_id i q)) l) = None.
Proof.
  induction l as [|q l IH]; cbn; [reflexivity|].
  destruct (has_id i q) eqn:H; cbn; [exact IH|now rewrite H].
Qed.

Lemma filter_absent (l : list post) :
  find (has_id i) l = None ->
  filter (fun q => negb (has_id i q)) l = l.
Proof.
  induction l as [|q l IH]; cbn; [reflexivity|].
  destruct (has_id i q); [discriminate|]; cbn; intros H; now rewrite IH.
Qed.

End Rows.

(** C3, as the code has it: an update whose body passes validation is never
    turned down with 400 for the length of its title, which the endpoint
    does not check.  When the stripped title has at most 200 characters and
    title and content hold no NUL character and no surrogate: if no row
    has the [id], the answer is 404 [{"error": "Post not found"}] and the
    table is as before; if a row has it, that row gets the stripped title
    and content, keeps its [id] and [created_at], every other row is left
    as it is, and the answer is 200 with the updated row as JSON.  (The
    storage layer answers its calls; the rows of the table are compared
    whatever their order.) *)
Theorem update_post_replaces
    (i : Z) (rq : request) (data : pyval) (t0 c0 : pystr)
    (e : env) (w : world) :
  get_json rq = inr data ->
  get data (py "title") (PStr []) = inr (PStr t0) ->
  get data (py "content") (PStr []) = inr (PStr c0) ->
  strip t0 <> [] ->
  strip c0 <> [] ->
  status_of (fst (update_post i rq e w)) <> Some 400 /\
  (storage_ok e ->
   List.length (strip t0) <= 200 ->
   sendable (strip t0) ->
   sendable (strip c0) ->
   match find (has_id i) (posts w) with
   | None =>
       exists w',
         update_post i rq e w =
           (inr (error_json "Post not found", 404), w') /\
         posts w' = posts w
   | Some p =>
       exists w' rows,
         update_post i rq e w =
           (inr (post_json (set_title_content (strip t0) (strip c0) p), 200),
            w') /\
         Permutation rows (posts w') /\
         Forall2 (updated_row i (strip t0) (strip c0)) (posts w) rows
   end).
Proof.
  intros D Ht Hc Nt Nc.
  rewrite update_post_view.
  rewrite (validate_accepted false rq data t0 c0 D Ht Hc Nt Nc)
    by discriminate.
  cbn [validated]; split.
  - unfold storage_outcome.
    destruct (fault e Connect); [discriminate|].
    destruct (adapt_all _); [discriminate|].
    destruct (fault e Execute); [discriminate|].
    destruct (run_statement _ _ _ _ _) as [[x|[t' rows]] seq];
      [discriminate|].
    unfold decide_update.
    destruct (negb (truthy _)); [discriminate|].
    destruct (fault e Commit); [discriminate|].
    destruct (fault e CommitReply); discriminate.
  - intros ok L St Sc.
    rewrite (storage_outcome_ok e w ok).
    cbn [string_parameters]; rewrite (adapt_fields _ _ St Sc).
    cbn [run_statement]; rewrite (varchar_fits 200 _ L).
    rewrite fetchone_first, filter_updated.
    rewrite <- hd_error_filter.
    destruct (filter (has_id i) (posts w)) as [|p l] eqn:F; cbn [map hd_error].
    + eexists; split; [reflexivity|]; reflexivity.
    + eexists; eexists; split; [reflexivity|]; cbn [posts].
      split; [reflexivity|apply map_updated].
Qed.

Lemma update_post_replaces_witness :
  exists w' rows,
    update_post 1 (json_post (py " Hello again ") (py "Edited"))
      (quiet 3000) one_post =
      (inr (post_json {| id := 1; title := py "Hello again";
                         content := py "Edited"; created_at := 1000 |},
            200), w') /\
    Permutation rows (posts w') /\
    Forall2 (updated_row 1 (py "Hello again") (py "Edited"))
      (posts one_post) rows.
Proof.
  apply (proj2 (update_post_replaces 1
           (json_post (py " Hello again ") (py "Edited")) _
           (py " Hello again ") (py "Edited") (quiet 3000) one_post
           eq_refl eq_refl eq_refl
           ltac:(vm_compute; discriminate) ltac:(vm_compute; discriminate))
         (quiet_ok 3000)).
  - vm_compute; lia.
  - reflexivity.
  - reflexivity.
Defined.

(** C3 as it is worded fails on a post that exists, the row keeping its
    title and the answer being 500: for a title of 201 characters, because
    the column is a [VARCHAR(200)] and the statement raises; and for a
    title that holds a NUL character, which the driver refuses to send. *)
Lemma update_post_not_stored :
  find (has_id 1) (posts one_post) = Some hello /\
  (strip (repeat 97%N 201) <> [] /\
   strip (py "Edited") <> [] /\
   exists w',
     update_post 1 (json_post (repeat 97%N 201) (py "Edited")) (quiet 3000)
       one_post =
       (inr (error_json
               ("value too long for type character varying(200)" ++ newline),
             500), w') /\
     posts w' = posts one_post) /\
  (strip [97; 0; 98]%N <> [] /\
   strip (py "Edited") <> [] /\
   exists w',
     update_post 1 (json_post [97; 0; 98]%N (py "Edited")) (quiet 3000)
       one_post =
       (inr (error_json
               "A string literal cannot contain NUL (0x00) characters.", 500),
        w') /\
     posts w' = posts one_post).
Proof.
  repeat split; try (vm_compute; discriminate);
    eexists; split; vm_compute; reflexivity.
Qed.

(** C4: a delete of an [id] that a row has removes that row and no other
    and answers 200 with the confirmation; a delete of an [id] no row has
    answers 404 [{"error": "Post not found"}] and leaves the table as it
    is.  After a delete that succeeded, a delete of the same [id] answers
    404.  (The storage layer answers its calls, and [id] is a key of the
    table.) *)
Theorem delete_post_removes (i : Z) (e : env) (w : world) :
  storage_ok e ->
  db_invariant w ->
  match find (has_id i) (posts w) with
  | Some p =>
      exists w' l1 l2,
        delete_post i e w =
          (inr (message_json "Post deleted successfully", 200), w') /\
        posts w = l1 ++ p :: l2 /\
        posts w' = l1 ++ l2 /\
        forall e', storage_ok e' ->
          fst (delete_post i e' w') = inr (error_json "Post not found", 404)
  | None =>
      exists w',
        delete_post i e w = (inr (error_json "Post not found", 404), w') /\
        posts w' = posts w
  end.
Proof.
  intros ok inv.
  rewrite delete_post_view, (storage_outcome_ok e w ok).
  cbn [string_parameters adapt_all run_statement]; rewrite fetchone_first.
  destruct (find (has_id i) (posts w)) as [p|] eqn:F.
  - destruct (delete_one i p (posts w) (inv_key w inv) F)
      as (l1 & l2 & E1 & E2).
    rewrite <- hd_error_filter in F.
    destruct (filter (has_id i) (posts w)) as [|q l]; [discriminate|].
    eexists; exists l1, l2.
    split; [reflexivity|]; split; [exact E1|]; split; [exact E2|].
    intros e' ok'.
    rewrite delete_post_view, (storage_outcome_ok e' _ ok').
    cbn [string_parameters adapt_all run_statement posts];
      rewrite fetchone_first.
    rewrite hd_error_map, hd_error_filter, find_deleted; reflexivity.
  - rewrite <- hd_error_filter in F.
    destruct (filter (has_id i) (posts w)) as [|q l]; [|discriminate].
    eexists; split; reflexivity.
Qed.

Lemma delete_post_removes_witness :
  exists w' l1 l2,
    delete_post 1 (quiet 0) one_post =
      (inr (message_json "Post deleted successfully", 200), w') /\
    posts one_post = l1 ++ hello :: l2 /\
    posts w' = l1 ++ l2 /\
    forall e', storage_ok e' ->
      fst (delete_post 1 e' w') = inr (error_json "Post not found", 404).
Proof.
  exact (delete_post_removes 1 (quiet 0) one_post (quiet_ok 0)
           one_post_invariant).
Defined.

(* ================================================================= *)
(** * The answers that leave the database alone *)

(** A 404 comes from the branch that closes without committing. *)
Lemma storage_outcome_404 (f : cursor_factory) (s : statement)
    (decide : pyval -> bool * response) (e : env) (w : world) :
  (forall v, status (snd (decide v)) = 404 -> fst (decide v) = false) ->
  status_of (fst (storage_outcome f s decide e w)) = Some 404 ->
  let n := List.length (conns w) in
  exists t' rows seq,
    run_statement s (now e) (rank e) (posts w) (posts_id_seq w) =
      (inr (t', rows), seq) /\
    fst (decide (fst (fetchone (Cursor n f rows)))) = false /\
    snd (storage_outcome f s decide e w) =
      World (posts w) seq (conns w ++ [Closed])
        (EvClose n :: EvExecute n s :: EvConnect n :: log w).
Proof.
  intros Hd; unfold storage_outcome.
  destruct (fault e Connect); [discriminate|].
  destruct (adapt_all _); [discriminate|].
  destruct (fault e Execute); [discriminate|].
  destruct (run_statement _ _ _ _ _) as [[x|[t' rows]] seq]; [discriminate|].
  cbv zeta.
  specialize (Hd (fst (fetchone (Cursor (List.length (conns w)) f rows)))).
  destruct (decide _) as [[|] r] eqn:Dec; cbn [fst snd] in *.
  - destruct (fault e Commit); [discriminate|].
    destruct (fault e CommitReply); [discriminate|].
    cbn; intros E; injection E as E; specialize (Hd E); discriminate.
  - intros _; exists t', rows, seq; repeat split; now rewrite Dec.
Qed.

Lemma decide_update_404 (v : pyval) :
  status (snd (decide_update v)) = 404 -> fst (decide_update v) = false.
Proof. unfold decide_update; destruct (negb (truthy v)); [reflexivity|discriminate]. Qed.

Lemma decide_delete_404 (v : pyval) :
  status (snd (decide_delete v)) = 404 -> fst (decide_delete v) = false.
Proof. unfold decide_delete; destruct (negb (truthy v)); [reflexivity|discriminate]. Qed.

Lemma decide_update_false (v : pyval) :
  fst (decide_update v) = false -> truthy v = false.
Proof. unfold decide_update; destruct (truthy v); [discriminate|reflexivity]. Qed.

Lemma decide_delete_false (v : pyval) :
  fst (decide_delete v) = false -> truthy v = false.
Proof. unfold decide_delete; destruct (truthy v); [discriminate|reflexivity]. Qed.

(** A cursor whose first row is falsy has no row: the rows of the
    statements at hand are never empty tuples or empty dicts. *)
Lemma fetched_nothing (n : nat) (f : cursor_factory) (rows : list row) :
  Forall (fun r => r <> []) rows ->
  truthy (fst (fetchone (Cursor n f rows))) = false -> rows = [].
Proof.
  destruct rows as [|r rows]; [reflexivity|].
  intros F; inversion_clear F as [|? ? Hr _].
  destruct r as [|kv r]; [now elim Hr|].
  destruct f; discriminate.
Qed.

(** C10: when an update or a delete answers 404, no row has the [id], no
    commit was issued, and the table and its sequence are as before. *)
Theorem not_found_changes_nothing
    (i : Z) (rq : request) (e : env) (w : world)
    (out : (exn + response) * world) :
  out = update_post i rq e w \/ out = delete_post i e w ->
  status_of (fst out) = Some 404 ->
  find (has_id i) (posts w) = None /\
  posts (snd out) = posts w /\
  posts_id_seq (snd out) = posts_id_seq w /\
  exists evs, log (snd out) = evs ++ log w /\ Forall no_commit evs.
Proof.
  intros [-> | ->].
  - rewrite update_post_view.
    destruct (validate false rq) as [x| | | |t c]; try discriminate.
    cbn [validated]; intros S.
    destruct (storage_outcome_404 _ _ _ e w decide_update_404 S)
      as (t' & rows & seq & R & Dc & ->).
    apply decide_update_false in Dc.
    cbn [run_statement] in R.
    destruct (varchar 200 t) as [x|t1]; [discriminate|].
    injection R as <- <- <-.
    apply fetched_nothing in Dc.
    2:{ apply Forall_forall; intros r Hr; apply in_map_iff in Hr.
        destruct Hr as (p & <- & _); discriminate. }
    rewrite filter_updated in Dc.
    rewrite <- hd_error_filter.
    destruct (filter (has_id i) (posts w)); [|discriminate].
    repeat split.
    eexists [_; _; _]; split; [reflexivity|repeat constructor].
  - rewrite delete_post_view; intros S.
    destruct (storage_outcome_404 _ _ _ e w decide_delete_404 S)
      as (t' & rows & seq & R & Dc & ->).
    apply decide_delete_false in Dc.
    cbn [run_statement] in R; injection R as <- <- <-.
    apply fetched_nothing in Dc.
    2:{ apply Forall_forall; intros r Hr; apply in_map_iff in Hr.
        destruct Hr as (p & <- & _); discriminate. }
    rewrite <- hd_error_filter.
    destruct (filter (has_id i) (posts w)); [|discriminate].
    repeat split.
    eexists [_; _; _]; split; [reflexivity|repeat constructor].
Qed.

Lemma not_found_changes_nothing_witness :
  (find (has_id 7) (posts one_post) = None /\
   posts (snd (update_post 7 (json_post (py "T") (py "C")) (quiet 0) one_post))
     = posts one_post /\
   posts_id_seq
     (snd (update_post 7 (json_post (py "T") (py "C")) (quiet 0) one_post))
     = posts_id_seq one_post /\
   exists evs,
     log (snd (update_post 7 (json_post (py "T") (py "C")) (quiet 0) one_post))
       = evs ++ log one_post /\ Forall no_commit evs) /\
  (find (has_id 7) (posts one_post) = None /\
   posts (snd (delete_post 7 (quiet 0) one_post)) = posts one_post /\
   posts_id_seq (snd (delete_post 7 (quiet 0) one_post))
     = posts_id_seq one_post /\
   exists evs,
     log (snd (delete_post 7 (quiet 0) one_post)) = evs ++ log one_post /\
     Forall no_commit evs).
Proof.
  split.
  - apply (not_found_changes_nothing 7 (json_post (py "T") (py "C"))
             (quiet 0) one_post _ (or_introl eq_refl)).
    reflexivity.
  - apply (not_found_changes_nothing 7 (json_post (py "T") (py "C"))
             (quiet 0) one_post _ (or_intror eq_refl)).
    reflexivity.
Defined.

(* ================================================================= *)
(** * The invariant of the data model *)

Section Invariant.

Lemma db_invariant_seq (w : world) (t : table) (seq : Z)
    (l : list connection) (evs : list event) :
  db_invariant w -> t = posts w -> (posts_id_seq w <= seq)%Z ->
  db_invariant (World t seq l evs).
Proof.
  intros [V S K] -> L; split; cbn; auto.
  eapply Forall_impl; [|exact S]; cbn; intros; lia.
Qed.

Lemma NoDup_filter_map {A B} (g : A -> B) (f : A -> bool) (l : list A) :
  NoDup (map g l) -> NoDup (map g (filter f l)).
Proof.
  induction l as [|a l IH]; cbn; [auto|].
  intros N; inversion_clear N as [|? ? Ha N'].
  destruct (f a); cbn; [constructor|]; auto.
  intros I; apply Ha.
  apply in_map_iff in I as (x & E & I); apply filter_In in I as [I _].
  apply in_map_iff; now exists x.
Qed.

Lemma Forall_filter {A} (P : A -> Prop) (f : A -> bool) (l : list A) :
  Forall P l -> Forall P (filter f l).
Proof.
  induction 1 as [|a l Ha _ IH]; cbn; [constructor|].
  destruct (f a); auto.
Qed.

(** One statement keeps the invariant of the table, and the sequence never
    goes back. *)
Lemma run_statement_invariant (s : statement) (now : Z) (rank : post -> Z)
    (w : world) :
  statement_ok s -> db_invariant w ->
  match run_statement s now rank (posts w) (posts_id_seq w) with
  | (inl _, seq) => (posts_id_seq w <= seq)%Z
  | (inr (t', _), seq) =>
      (posts_id_seq w <= seq)%Z /\
      forall l evs, db_invariant (World t' seq l evs)
  end.
Proof.
  intros Hs inv; pose proof inv as [V S K].
  destruct s as [| |t c|t c i|i]; cbn [run_statement statement_ok] in *.
  - split; [lia|]; intros; eapply db_invariant_seq; eauto; lia.
  - split; [lia|]; intros; eapply db_invariant_seq; eauto; lia.
  - destruct Hs as (St & Nt & Sc & Nc).
    destruct (varchar 200 t) as [x|v] eqn:Ev; [lia|].
    rewrite <- St in Ev; apply varchar_strip in Ev as [-> L].
    rewrite St in *.
    destruct (max_serial <=? posts_id_seq w)%Z; [lia|].
    rewrite (fresh_id _ _ S).
    split; [lia|]; intros l evs; split; cbn.
    + apply Forall_app; split; [exact V|].
      constructor; [|constructor].
      unfold valid_post; cbn; auto.
    + apply Forall_app; split.
      * eapply Forall_impl; [|exact S]; cbn; intros; lia.
      * constructor; [cbn; lia|constructor].
    + rewrite map_app; cbn.
      apply NoDup_app; [exact K|repeat constructor; cbn; tauto|].
      intros z Hz [<-|[]].
      apply in_map_iff in Hz as (p & E & Hp).
      rewrite Forall_forall in S; specialize (S p Hp); cbn in S; lia.
  - destruct Hs as (St & Nt & Sc & Nc).
    destruct (varchar 200 t) as [x|v] eqn:Ev; [lia|].
    rewrite <- St in Ev; apply varchar_strip in Ev as [-> L].
    rewrite St in *.
    split; [lia|]; intros l evs; split; cbn.
    + clear S K inv; induction V as [|p ps Hp _ IH]; cbn; constructor; auto.
      unfold update_row; destruct (has_id i p); [|exact Hp].
      unfold valid_post; cbn; auto.
    + clear V K inv; induction S as [|p ps Hp _ IH]; cbn; constructor; auto.
      unfold update_row; now destruct (has_id i p).
    + now rewrite map_updated_ids.
  - split; [lia|]; intros l evs; split; cbn.
    + now apply Forall_filter.
    + now apply Forall_filter.
    + now apply NoDup_filter_map.
Qed.

(** The storage half of any request keeps the invariant, whatever fails. *)
Lemma storage_outcome_invariant (f : cursor_factory) (s : statement)
    (decide : pyval -> bool * response) (e : env) (w : world) :
  statement_ok s -> db_invariant w ->
  db_invariant (snd (storage_outcome f s decide e w)) /\
  (posts_id_seq w <= posts_id_seq (snd (storage_outcome f s decide e w)))%Z.
Proof.
  intros Hs inv; unfold storage_outcome.
  destruct (fault e Connect); [cbn [snd]; split; [exact inv|lia]|].
  destruct (adapt_all _).
  { cbn [snd]; split; [eapply db_invariant_seq; eauto; lia|cbn; lia]. }
  destruct (fault e Execute).
  { cbn [snd]; split; [eapply db_invariant_seq; eauto; lia|cbn; lia]. }
  pose proof (run_statement_invariant s (now e) (rank e) w Hs inv) as R.
  destruct (run_statement _ _ _ _ _) as [[x|[t' rows]] seq].
  { cbn [snd]; split; [eapply db_invariant_seq; eauto|exact R]. }
  destruct R as [L R]; cbv zeta.
  destruct (decide _) as [[|] r].
  - destruct (fault e Commit); [|destruct (fault e CommitReply)];
      cbn [snd]; (split; [|exact L]);
      [eapply db_invariant_seq; eauto | apply R | apply R].
  - cbn [snd]; split; [eapply db_invariant_seq; eauto|exact L].
Qed.

(** A request that validation accepts sends stripped, non-empty strings. *)
Lemma validate_statement_ok (limit : bool) (rq : request) (t c : pystr) :
  validate limit rq = Accepted t c ->
  strip t = t /\ t <> [] /\ strip c = c /\ c <> [] /\
  (limit = true -> List.length t <= 200).
Proof.
  unfold validate.
  destruct (get_json rq) as [x|data]; [discriminate|].
  destruct (negb (truthy data)); [discriminate|].
  destruct (get data (py "title") (PStr [])) as [x|tv]; [discriminate|].
  destruct tv; try discriminate; cbn [strip_method].
  destruct (get data (py "content") (PStr [])) as [x|cv]; [discriminate|].
  destruct cv; try discriminate; cbn [strip_method].
  destruct (negb (truthy (PStr (strip s)))) eqn:Tt; [discriminate|].
  destruct (negb (truthy (PStr (strip s0)))) eqn:Tc; [discriminate|].
  cbn [orb].
  destruct (limit && Nat.ltb 200 (List.length (strip s))) eqn:L;
    [discriminate|].
  intros E; injection E as <- <-.
  apply negb_false_iff, truthy_str in Tt, Tc.
  repeat split; auto using strip_idempotent.
  intros ->; cbn [andb] in L; now apply Nat.ltb_ge in L.
Qed.

End Invariant.

Section Dispatch.

Variable e : env.
Variable w : world.
Hypothesis inv : db_invariant w.

Lemma step_ok_untouched (r : response) :
  Nat.eqb (status r) 201 = false -> step_ok w (inr r, w).
Proof.
  intros S; split; [exact inv|]; split; [cbn; lia|].
  left; cbn; now rewrite S.
Qed.

Lemma step_ok_quiet (f : cursor_factory) (s : statement)
    (decide : pyval -> bool * response) :
  statement_ok s ->
  (forall v, Nat.eqb (status (snd (decide v))) 201 = false) ->
  step_ok w (storage_outcome f s decide e w).
Proof.
  intros Hs Hd.
  destruct (storage_outcome_invariant f s decide e w Hs inv) as [I L].
  split; [exact I|]; split; [exact L|]; left.
  unfold storage_outcome.
  destruct (fault e Connect); [reflexivity|].
  destruct (adapt_all _); [reflexivity|].
  destruct (fault e Execute); [reflexivity|].
  destruct (run_statement _ _ _ _ _) as [[x|[t' rows]] seq]; [reflexivity|].
  cbv zeta; specialize (Hd (fst (fetchone (Cursor (List.length (conns w)) f rows)))).
  destruct (decide _) as [[|] r]; cbn [snd] in Hd.
  - destruct (fault e Commit); [reflexivity|].
    destruct (fault e CommitReply); [reflexivity|]; cbn; now rewrite Hd.
  - cbn; now rewrite Hd.
Qed.

Lemma step_ok_create (t c : pystr) :
  statement_ok (InsertPost t c) ->
  step_ok w (storage_outcome RealDictCursor (InsertPost t c) decide_create e w).
Proof.
  intros Hs.
  destruct (storage_outcome_invariant RealDictCursor (InsertPost t c)
              decide_create e w Hs inv) as [I L].
  split; [exact I|]; split; [exact L|].
  unfold storage_outcome.
  destruct (fault e Connect); [now left|].
  destruct (adapt_all _); [now left|].
  destruct (fault e Execute); [now left|].
  cbn [run_statement].
  destruct (varchar 200 t) as [x|v]; [now left|].
  destruct (max_serial <=? posts_id_seq w)%Z; [now left|].
  destruct (existsb _ _); [now left|].
  cbv zeta; unfold decide_create.
  destruct (fault e Commit); [now left|].
  destruct (fault e CommitReply); [now left|].
  right; exists (posts_id_seq w + 1)%Z; split; [reflexivity|cbn; lia].
Qed.

Lemma step_ok_frame (m : M response) :
  step_ok w (m e w) -> step_ok w (frame m e w).
Proof.
  destruct (frame_result m e w) as (F & P & Q & _).
  unfold step_ok; rewrite F, Q.
  intros (I & L & C); split; [|now split].
  destruct (snd (frame m e w)) as [t seq l evs]; cbn in P, Q.
  eapply db_invariant_seq; [exact I|exact P|lia].
Qed.

Lemma dispatch_step_ok (r : route) : step_ok w (dispatch r e w).
Proof.
  unfold dispatch; apply step_ok_frame.
  destruct r as [| |rq|i rq|i]; cbn [view_of].
  - now apply step_ok_untouched.
  - rewrite get_posts_view.
    destruct (fault e Connect); [now apply step_ok_untouched|].
    destruct (fault e Execute).
    + split; [eapply db_invariant_seq; eauto; lia|].
      split; [cbn; lia|now left].
    + split; [eapply db_invariant_seq; eauto; lia|].
      split; [cbn; lia|now left].
  - rewrite create_post_view.
    destruct (validate true rq) as [x| | | |t c] eqn:V;
      try (now apply step_ok_untouched).
    apply validate_statement_ok in V; cbn [validated].
    apply step_ok_create; cbn; tauto.
  - rewrite update_post_view.
    destruct (validate false rq) as [x| | | |t c] eqn:V;
      try (now apply step_ok_untouched).
    apply validate_statement_ok in V; cbn [validated].
    apply step_ok_quiet; [cbn; tauto|].
    intros v; unfold decide_update; now destruct (negb (truthy v)).
  - rewrite delete_post_view.
    apply step_ok_quiet; [exact I|].
    intros v; unfold decide_delete; now destruct (negb (truthy v)).
Qed.

End Dispatch.

(** C7: create, update and delete, and every run of requests made of them,
    keep the invariant of the data model: each row of the table has a
    stripped, non-empty title of at most 200 characters and a stripped,
    non-empty content.  No [id] is used twice: the [id]s the run announces
    as created increase strictly and lie beyond every [id] the sequence had
    handed out before the run, which bounds the [id]s of the table. *)
Theorem serve_keeps_invariant (rs : list (route * env)) (w : world) :
  db_invariant w ->
  db_invariant (snd (serve rs w)) /\
  (posts_id_seq w <= posts_id_seq (snd (serve rs w)))%Z /\
  StronglySorted Z.lt (created_ids (fst (serve rs w))) /\
  Forall (fun i => (posts_id_seq w < i <= posts_id_seq (snd (serve rs w)))%Z)
    (created_ids (fst (serve rs w))).
Proof.
  revert w; induction rs as [|[r e] rs IH]; intros w inv.
  - cbn; split; [exact inv|]; split; [lia|]; split; constructor.
  - cbn [serve].
    pose proof (dispatch_step_ok e w inv r) as (I1 & L1 & C1).
    destruct (dispatch r e w) as [out w1]; cbn [fst snd] in *.
    specialize (IH w1 I1) as (I2 & L2 & S2 & F2).
    destruct (serve rs w1) as [outs w2]; cbn [fst snd] in *.
    unfold created_ids in *; cbn [flat_map].
    split; [exact I2|]; split; [lia|].
    assert (F2' : Forall (fun i => (posts_id_seq w < i <= posts_id_seq w2)%Z)
                    (flat_map created_id outs)).
    { eapply Forall_impl; [|exact F2]; cbn; intros; lia. }
    destruct C1 as [-> | (i & -> & Hi)]; cbn [app]; [now split|].
    split; constructor; auto; try lia.
    eapply Forall_impl; [|exact F2]; cbn; intros; lia.
Qed.

Lemma new_world_invariant : db_invariant new_world.
Proof. split; cbn; constructor. Defined.

Lemma serve_keeps_invariant_witness :
  let rs := [(POST_posts (json_post (py " A ") (py "a")), quiet 10);
             (DELETE_post 1, quiet 20);
             (POST_posts (json_post (py "B") (py " b ")), quiet 30);
             (PUT_post 2 (json_post (py "C") (py "c")), quiet 40)] in
  db_invariant (snd (serve rs new_world)) /\
  (posts_id_seq new_world <= posts_id_seq (snd (serve rs new_world)))%Z /\
  StronglySorted Z.lt (created_ids (fst (serve rs new_world))) /\
  Forall (fun i => (posts_id_seq new_world < i
                    <= posts_id_seq (snd (serve rs new_world)))%Z)
    (created_ids (fst (serve rs new_world))).
Proof. intros rs; exact (serve_keeps_invariant rs new_world new_world_invariant). Defined.
(* ================================================================= *)
(** * Where the handlers fall short of the specification *)

(** A request that is answered 400 has not reached the storage layer: the
    world, its log of driver calls included, is the one before. *)
Lemma rejected_untouched (i : Z) (rq : request) (e : env) (w : world)
    (out : (exn + response) * world) :
  out = create_post rq e w \/ out = update_post i rq e w ->
  status_of (fst out) = Some 400 ->
  snd out = w.
Proof.
  intros [-> | ->]; [rewrite create_post_view|rewrite update_post_view].
  - destruct (validate true rq) as [x| | | |t c]; try reflexivity.
    cbn [validated]; unfold storage_outcome.
    destruct (fault e Connect); [discriminate|].
    destruct (adapt_all _); [discriminate|].
    destruct (fault e Execute); [discriminate|].
    destruct (run_statement _ _ _ _ _) as [[x|[t' rows]] seq]; [discriminate|].
    cbv zeta; unfold decide_create.
    destruct (fault e Commit); [discriminate|].
    destruct (fault e CommitReply); discriminate.
  - destruct (validate false rq) as [x| | | |t c]; try reflexivity.
    cbn [validated]; unfold storage_outcome.
    destruct (fault e Connect); [discriminate|].
    destruct (adapt_all _); [discriminate|].
    destruct (fault e Execute); [discriminate|].
    destruct (run_statement _ _ _ _ _) as [[x|[t' rows]] seq]; [discriminate|].
    cbv zeta; unfold decide_update.
    destruct (negb (truthy _)); [discriminate|].
    destruct (fault e Commit); [discriminate|].
    destruct (fault e CommitReply); discriminate.
Qed.

(** C6 at the input that breaks it: for a body that does not decode,
    [get_json] raises inside the handler's [try]; the handler's
    [except Exception] answers 500 with the text of the exception, where
    the specification asks for 400.  The storage layer is not touched. *)
Theorem undecodable_body_is_500 (i : Z) (e : env) (w : world) :
  create_post (Request (inl BadRequest)) e w =
    (inr (dict1 "error" (str BadRequest), 500), w) /\
  update_post i (Request (inl BadRequest)) e w =
    (inr (dict1 "error" (str BadRequest), 500), w).
Proof. split; reflexivity. Qed.

(* ================================================================= *)
(** * The connection of a request *)


(* ================================================================= *)
(** * Every request is answered *)

(** No exception leaves a handler: whatever the request and whatever
    fails, Flask is handed a response. *)
Lemma dispatch_answers (r : route) (e : env) (w : world) :
  exists rsp, fst (dispatch r e w) = inr rsp.
Proof. request_cases r; eexists; reflexivity. Qed.

(** Two posts created one after the other are listed newest first, each
    with the [id], title and content its creation announced. *)
Example list_after_two_posts :
  nth_error
    (fst (serve [(POST_posts (json_post (py " A ") (py "a")), quiet 10);
                 (POST_posts (json_post (py "B") (py " b ")), quiet 20);
                 (GET_posts, quiet 30)] new_world)) 2 =
  Some (inr (PList
               [post_json {| id := 2; title := py "B"; content := py "b";
                             created_at := 20 |};
                post_json {| id := 1; title := py "A"; content := py "a";
                             created_at := 10 |}], 200)).
Proof. vm_compute; reflexivity. Qed.

(* ================================================================= *)
(** * Start-up and failures of the storage layer *)


(** X2: when the connection cannot be opened, every handler that needs the
    database answers 500 with [{"error": str(e)}], [e] being the exception
    of [psycopg2.connect], and nothing else has happened. *)
Theorem connection_failure_is_500
    (i : Z) (rq : request) (data : pyval) (t0 c0 : pystr)
    (e : env) (w : world) (x : exn) :
  fault e Connect = Some x ->
  get_json rq = inr data ->
  get data (py "title") (PStr []) = inr (PStr t0) ->
  get data (py "content") (PStr []) = inr (PStr c0) ->
  strip t0 <> [] ->
  strip c0 <> [] ->
  List.length (strip t0) <= 200 ->
  Forall (fun r => dispatch r e w = (inr (dict1 "error" (str x), 500), w))
    [GET_posts; POST_posts rq; PUT_post i rq; DELETE_post i].
Proof.
  intros F D Ht Hc Nt Nc L.
  repeat (apply Forall_cons; [|]); [| | | |apply Forall_nil];
    unfold dispatch; apply frame_untouched; cbn [view_of].
  - now rewrite get_posts_view, F.
  - rewrite create_post_view.
    rewrite (validate_accepted true rq data t0 c0 D Ht Hc Nt Nc (fun _ => L)).
    cbn [validated]; unfold storage_outcome; now rewrite F.
  - rewrite update_post_view.
    rewrite (validate_accepted false rq data t0 c0 D Ht Hc Nt Nc)
      by discriminate.
    cbn [validated]; unfold storage_outcome; now rewrite F.
  - rewrite delete_post_view; unfold storage_outcome; now rewrite F.
Qed.

Lemma connection_failure_is_500_witness :
  Forall
    (fun r => dispatch r unreachable one_post =
              (inr (error_json "connection refused", 500), one_post))
    [GET_posts; POST_posts (json_post (py "T") (py "C"));
     PUT_post 1 (json_post (py "T") (py "C")); DELETE_post 1].
Proof.
  apply (connection_failure_is_500 1 (json_post (py "T") (py "C")) _
           (py "T") (py "C") unreachable one_post _
           eq_refl eq_refl eq_refl eq_refl).
  - vm_compute; discriminate.
  - vm_compute; discriminate.
  - vm_compute; lia.
Defined.

(* ================================================================= *)
(** * What every request does and does not do *)

(** X3: every request is answered, and with a status of its route: 200 for
    the health check; 200 or 500 for the list; 201, 400 or 500 for a create;
    200, 400, 404 or 500 for an update; 200, 404 or 500 for a delete. *)
Theorem dispatch_status (r : route) (e : env) (w : world) :
  exists rsp, fst (dispatch r e w) = inr rsp /\ In (status rsp) (statuses r).
Proof.
  request_cases r; eexists; (split; [reflexivity|cbn; tauto]).
Qed.

(** X4: [conn.close()] is called on the paths that do not end in a 500, and
    on no other.  A request either leaves the world as it found it (no call
    to the driver got through), or it has opened one connection; then, when
    the answer is not a 500, the last call it made to the driver is the
    [close()] of that connection, and when the answer is a 500 it has made
    no call to [close()] at all. *)
Theorem closed_by_handler (r : route) (e : env) (w : world) :
  snd (dispatch r e w) = w \/
  exists evs,
    log (snd (dispatch r e w)) =
      evs ++ EvConnect (List.length (conns w)) :: log w /\
    (status_of (fst (dispatch r e w)) <> Some 500 ->
     hd_error evs = Some (EvClose (List.length (conns w)))) /\
    (status_of (fst (dispatch r e w)) = Some 500 ->
     ~ In (EvClose (List.length (conns w))) evs).
Proof.
  request_cases r;
    first [ left; destruct w; reflexivity | right ];
    first [ eexists [_]; split; [reflexivity|]
          | eexists [_; _]; split; [reflexivity|]
          | eexists [_; _; _]; split; [reflexivity|] ];
    (split; [intros H; first [reflexivity | now elim H]|]);
    intros H; first [discriminate H | cbn; intuition discriminate].
Qed.

(** X5: the two GET routes never write: whatever fails, the table and the
    sequence are as before and no commit is issued. *)
Theorem get_never_writes (r : route) (e : env) (w : world) :
  r = GET_root \/ r = GET_posts ->
  posts (snd (dispatch r e w)) = posts w /\
  posts_id_seq (snd (dispatch r e w)) = posts_id_seq w /\
  exists evs, log (snd (dispatch r e w)) = evs ++ log w /\
              Forall no_commit evs.
Proof.
  destruct (dispatch_result r e w) as (_ & -> & -> & ->).
  intros [-> | ->]; cbn [view_of].
  - repeat split; exists []; split; [reflexivity|constructor].
  - rewrite get_posts_view.
    destruct (fault e Connect); [|destruct (fault e Execute)]; cbn;
      repeat split;
      first [ exists []; split; [reflexivity|constructor]
            | eexists [_; _]; split; [reflexivity|repeat constructor]
            | eexists [_; _; _]; split; [reflexivity|repeat constructor] ].
Qed.

Lemma get_never_writes_witness :
  posts (snd (dispatch GET_posts (quiet 0) one_post)) = posts one_post /\
  posts_id_seq (snd (dispatch GET_posts (quiet 0) one_post))
    = posts_id_seq one_post /\
  exists evs,
    log (snd (dispatch GET_posts (quiet 0) one_post)) = evs ++ log one_post /\
    Forall no_commit evs.
Proof.
  exact (get_never_writes GET_posts (quiet 0) one_post (or_intror eq_refl)).
Defined.

(** X6: the table changes only with a request that is answered 200 or 201,
    one case apart.  With a 400, a 404 or a 500 every row is as it was,
    unless the request committed and the call of [conn.commit()] raised all
    the same, the reply of the server being lost: the [except] clause then
    answers 500 with that exception, the last call to the driver is the
    commit, and what was committed stays. *)
Theorem error_answer_keeps_rows (r : route) (e : env) (w : world) :
  status_of (fst (dispatch r e w)) <> Some 200 ->
  status_of (fst (dispatch r e w)) <> Some 201 ->
  posts (snd (dispatch r e w)) = posts w \/
  exists x evs,
    fault e CommitReply = Some x /\
    fst (dispatch r e w) = inr (failed x) /\
    log (snd (dispatch r e w)) =
      EvCommit (List.length (conns w)) :: evs.
Proof.
  request_cases r; intros H1 H2;
    first [ now left | now elim H1 | now elim H2
          | right; eexists _, _; repeat split; eassumption
          | right; eexists _, _; repeat split; reflexivity ].
Qed.

Lemma error_answer_keeps_rows_witness :
  posts (snd (dispatch (PUT_post 1 (json_post (repeat 97%N 201) (py "Edited")))
                (quiet 0) one_post)) = posts one_post \/
  exists x evs,
    fault (quiet 0) CommitReply = Some x /\
    fst (dispatch (PUT_post 1 (json_post (repeat 97%N 201) (py "Edited")))
           (quiet 0) one_post) = inr (failed x) /\
    log (snd (dispatch
                (PUT_post 1 (json_post (repeat 97%N 201) (py "Edited")))
                (quiet 0) one_post)) =
      EvCommit (List.length (conns one_post)) :: evs.
Proof.
  apply (error_answer_keeps_rows
           (PUT_post 1 (json_post (repeat 97%N 201) (py "Edited")))
           (quiet 0) one_post).
  - vm_compute; discriminate.
  - vm_compute; discriminate.
Defined.

(* ================================================================= *)
(** * More on validation *)

Section Blank.

Lemma lstrip_blank (s : pystr) : lstrip s = [] <-> blank s.
Proof.
  unfold blank; induction s as [|a s IH]; cbn; [tauto|].
  destruct (isspace a); cbn; [exact IH|split; discriminate].
Qed.

Lemma blank_rev (s : pystr) : blank s -> blank (rev s).
Proof.
  unfold blank; rewrite !forallb_forall; intros H x Hx.
  apply H; now apply in_rev.
Qed.

(** [strip] leaves nothing exactly of the strings of whitespace. *)
Lemma strip_empty (s : pystr) : strip s = [] <-> blank s.
Proof.
  split.
  - intros E; destruct (lstrip s) as [|a r] eqn:L; [now apply lstrip_blank|].
    exfalso; unfold strip in E; rewrite L in E; unfold rstrip in E.
    apply (f_equal (@rev N)) in E; rewrite rev_involutive in E; cbn in E.
    apply lstrip_blank in E; unfold blank in E.
    rewrite forallb_app in E; apply andb_true_iff in E as [_ E].
    cbn in E; rewrite (lstrip_head _ _ _ L) in E; discriminate.
  - intros B; unfold strip.
    apply lstrip_blank in B; now rewrite B.
Qed.

End Blank.

(** What the length check adds to the validation of an update. *)
Lemma validate_limit (rq : request) :
  validate true rq =
  match validate false rq with
  | Accepted t c =>
      if Nat.ltb 200 (List.length t) then TooLong else Accepted t c
  | v => v
  end.
Proof.
  unfold validate.
  destruct (get_json rq) as [x|data]; [reflexivity|].
  destruct (negb (truthy data)); [reflexivity|].
  destruct (get data (py "title") (PStr [])) as [x|tv]; [reflexivity|].
  destruct (strip_method tv) as [x|t]; [reflexivity|].
  destruct (get data (py "content") (PStr [])) as [x|cv]; [reflexivity|].
  destruct (strip_method cv) as [x|c]; [reflexivity|].
  destruct (negb (truthy (PStr t)) || negb (truthy (PStr c)));
    reflexivity.
Qed.

(** A request that validation accepts is never answered 400. *)
Lemma stored_not_400 (f : cursor_factory) (s : statement)
    (decide : pyval -> bool * response) (e : env) (w : world) :
  (forall v, status (snd (decide v)) <> 400) ->
  status_of (fst (storage_outcome f s decide e w)) <> Some 400.
Proof.
  intros Hd; unfold storage_outcome.
  destruct (fault e Connect); [discriminate|].
  destruct (adapt_all _); [discriminate|].
  destruct (fault e Execute); [discriminate|].
  destruct (run_statement _ _ _ _ _) as [[x|[t' rows]] seq]; [discriminate|].
  cbv zeta.
  specialize (Hd (fst (fetchone (Cursor (List.length (conns w)) f rows)))).
  destruct (decide _) as [[|] rsp]; cbn [snd] in Hd.
  - destruct (fault e Commit); [discriminate|].
    destruct (fault e CommitReply); [discriminate|].
    cbn; intros E; injection E as E; now apply Hd.
  - cbn; intros E; injection E as E; now apply Hd.
Qed.

Lemma decide_create_not_400 (v : pyval) :
  status (snd (decide_create v)) <> 400.
Proof. discriminate. Qed.

Lemma decide_update_not_400 (v : pyval) :
  status (snd (decide_update v)) <> 400.
Proof. unfold decide_update; destruct (negb (truthy v)); discriminate. Qed.

(** X7: a body that is truthy and is no JSON object (an array, a string, a
    number, [true]) makes [data.get] raise; create and update answer 500
    with the text of the [AttributeError] and do not reach the storage
    layer. *)
Theorem non_object_body_is_500
    (i : Z) (rq : request) (data : pyval) (e : env) (w : world) :
  get_json rq = inr data ->
  truthy data = true ->
  not_dict data ->
  create_post rq e w =
    (inr (dict1 "error" (str (AttributeError data "get")), 500), w) /\
  update_post i rq e w =
    (inr (dict1 "error" (str (AttributeError data "get")), 500), w).
Proof.
  intros D T N.
  rewrite create_post_view, update_post_view; unfold validate.
  rewrite D, T; cbn [negb].
  destruct data; try contradiction; split; reflexivity.
Qed.

Lemma non_object_body_is_500_witness :
  create_post (Request (inr (PList [PInt 1]))) (quiet 0) one_post =
    (inr (error_json "'list' object has no attribute 'get'", 500), one_post) /\
  update_post 1 (Request (inr (PList [PInt 1]))) (quiet 0) one_post =
    (inr (error_json "'list' object has no attribute 'get'", 500), one_post).
Proof.
  exact (non_object_body_is_500 1 (Request (inr (PList [PInt 1]))) _
           (quiet 0) one_post eq_refl eq_refl I).
Defined.

(** X8: a JSON object whose title is present and is no string ([null], a
    number, an array, ...), or whose title is a string or absent and whose
    content is present and is no string, makes [.strip()] raise; create and
    update answer 500 with the text of the [AttributeError] and do not
    reach the storage layer. *)
Theorem non_string_field_is_500
    (i : Z) (rq : request) (d : list (pystr * pyval)) (v : pyval)
    (e : env) (w : world) :
  get_json rq = inr (PDict d) ->
  dict_lookup d (py "title") = Some v \/
  (string_or_missing d (py "title") /\
   dict_lookup d (py "content") = Some v) ->
  not_str v ->
  create_post rq e w =
    (inr (dict1 "error" (str (AttributeError v "strip")), 500), w) /\
  update_post i rq e w =
    (inr (dict1 "error" (str (AttributeError v "strip")), 500), w).
Proof.
  intros D H N.
  assert (T : truthy (PDict d) = true).
  { destruct d; [|reflexivity]; destruct H as [H|[_ H]]; discriminate. }
  rewrite create_post_view, update_post_view; unfold validate.
  rewrite D, T; cbn [negb]; unfold get.
  destruct H as [H|[S H]].
  - rewrite H; destruct v; try contradiction; split; reflexivity.
  - unfold string_or_missing in S.
    destruct (dict_lookup d (py "title")) as [tv|];
      [destruct tv; try contradiction|];
      cbn [strip_method]; rewrite H;
      destruct v; try contradiction; split; reflexivity.
Qed.

Lemma non_string_field_is_500_witness :
  create_post
    (Request (inr (PDict [(py "title", PStr (py "T")); (py "content", PNone)])))
    (quiet 0) one_post =
    (inr (error_json "'NoneType' object has no attribute 'strip'", 500),
     one_post) /\
  update_post 1
    (Request (inr (PDict [(py "title", PStr (py "T")); (py "content", PNone)])))
    (quiet 0) one_post =
    (inr (error_json "'NoneType' object has no attribute 'strip'", 500),
     one_post).
Proof.
  apply (non_string_field_is_500 1
           (Request (inr (PDict [(py "title", PStr (py "T"));
                                 (py "content", PNone)])))
           [(py "title", PStr (py "T")); (py "content", PNone)] PNone
           (quiet 0) one_post eq_refl).
  - right; split; [exact I|reflexivity].
  - exact I.
Defined.

(** X9: for a JSON object with string fields, create and update answer 400
    "Title and content are required" exactly when the title or the content
    consists of whitespace only (an absent field counting as empty). *)
Theorem blank_field_is_required
    (i : Z) (rq : request) (data : pyval) (t0 c0 : pystr)
    (e : env) (w : world) :
  get_json rq = inr data ->
  truthy data = true ->
  get data (py "title") (PStr []) = inr (PStr t0) ->
  get data (py "content") (PStr []) = inr (PStr c0) ->
  (blank t0 \/ blank c0 <->
   create_post rq e w =
     (inr (error_json "Title and content are required", 400), w)) /\
  (blank t0 \/ blank c0 <->
   update_post i rq e w =
     (inr (error_json "Title and content are required", 400), w)).
Proof.
  intros D T Ht Hc.
  rewrite create_post_view, update_post_view.
  rewrite !(validate_fields rq data D _ t0 c0 T Ht Hc).
  rewrite <- !strip_empty.
  destruct (strip t0) as [|a t] eqn:Et.
  { cbn; split; split; auto. }
  destruct (strip c0) as [|b c] eqn:Ec.
  { cbn; split; split; auto. }
  cbn [truthy List.length Nat.eqb negb orb andb].
  split; (split; [intros [?|?]; discriminate|]).
  - destruct (Nat.ltb 200 (S (List.length t))); cbn [validated].
    + intros E; injection E as E; vm_compute in E; discriminate.
    + intros E; apply (f_equal (fun o => status_of (fst o))) in E.
      now apply stored_not_400 in E; [|apply decide_create_not_400].
  - cbn [validated].
    intros E; apply (f_equal (fun o => status_of (fst o))) in E.
    now apply stored_not_400 in E; [|apply decide_update_not_400].
Qed.

Lemma blank_field_is_required_witness :
  (blank [32; 9; 160]%N \/ blank (py "text") <->
   create_post (json_post [32; 9; 160]%N (py "text")) (quiet 0) one_post =
     (inr (error_json "Title and content are required", 400), one_post)) /\
  (blank [32; 9; 160]%N \/ blank (py "text") <->
   update_post 1 (json_post [32; 9; 160]%N (py "text")) (quiet 0) one_post =
     (inr (error_json "Title and content are required", 400), one_post)).
Proof.
  exact (blank_field_is_required 1 (json_post [32; 9; 160]%N (py "text")) _
           [32; 9; 160]%N (py "text") (quiet 0) one_post
           eq_refl eq_refl eq_refl eq_refl).
Defined.

(** X10: update rejects what create rejects, the length of the title
    apart: a request that update answers with 400 gets the same answer from
    create, and a request that create answers with 400 for another reason
    than the length of its title gets the same answer from update. *)
Theorem update_rejects_like_create
    (i : Z) (rq : request) (e e' : env) (w w' : world) :
  (status_of (fst (update_post i rq e w)) = Some 400 ->
   fst (create_post rq e' w') = fst (update_post i rq e w)) /\
  (status_of (fst (create_post rq e' w')) = Some 400 ->
   fst (create_post rq e' w') <>
     inr (error_json "Title must be <= 200 characters", 400) ->
   fst (update_post i rq e w) = fst (create_post rq e' w')).
Proof.
  rewrite create_post_view, update_post_view, validate_limit.
  destruct (validate false rq) as [x| | | |t c]; cbn [validated];
    try (split; reflexivity).
  split.
  - intros S; now apply stored_not_400 in S; [|apply decide_update_not_400].
  - destruct (Nat.ltb 200 (List.length t)); cbn [validated].
    + intros _ N; now elim N.
    + intros S; now apply stored_not_400 in S; [|apply decide_create_not_400].
Qed.
(* ================================================================= *)
(** * Requests one after the other *)

Section Runs.

Variable e : env.
Variable w : world.
Hypothesis ok : storage_ok e.

(** The table a request leaves when the storage layer answers its calls. *)
Lemma create_post_table (rq : request) (t c : pystr) :
  db_invariant w ->
  (posts_id_seq w < max_serial)%Z ->
  validate true rq = Accepted t c ->
  sendable t ->
  sendable c ->
  let p := {| id := posts_id_seq w + 1; title := t; content := c;
              created_at := now e |} in
  fst (create_post rq e w) = inr (post_json p, 201) /\
  posts (snd (create_post rq e w)) = posts w ++ [p] /\
  posts_id_seq (snd (create_post rq e w)) = (posts_id_seq w + 1)%Z.
Proof.
  intros inv Q V St Sc p; rewrite create_post_view, V; cbn [validated].
  apply validate_statement_ok in V as (_ & _ & _ & _ & L).
  rewrite (storage_outcome_ok e w ok).
  cbn [string_parameters]; rewrite (adapt_fields _ _ St Sc).
  cbn [run_statement].
  rewrite (varchar_fits 200 _ (L eq_refl)), (fresh_id _ _ (inv_seq w inv)).
  apply Z.leb_gt in Q; rewrite Q.
  repeat split.
Qed.

(** An update changes nothing when the driver cannot send its strings. *)
Lemma update_post_table (i : Z) (rq : request) (t c : pystr) :
  validate false rq = Accepted t c ->
  List.length t <= 200 ->
  fst (update_post i rq e w) =
    match adapt_all [t; c] with
    | Some x => inr (failed x)
    | None =>
        match find (has_id i) (posts w) with
        | Some p => inr (post_json (set_title_content t c p), 200)
        | None => inr (error_json "Post not found", 404)
        end
    end /\
  posts (snd (update_post i rq e w)) =
    match adapt_all [t; c] with
    | Some _ => posts w
    | None => map (update_row i t c) (posts w)
    end.
Proof.
  intros V L; rewrite update_post_view, V; cbn [validated].
  rewrite (storage_outcome_ok e w ok); cbn [string_parameters].
  destruct (adapt_all [t; c]); [split; reflexivity|].
  cbn [run_statement].
  rewrite (varchar_fits 200 _ L), fetchone_first, filter_updated.
  rewrite <- hd_error_filter.
  destruct (filter (has_id i) (posts w)) as [|p l] eqn:F; cbn [map hd_error].
  - split; [reflexivity|]; cbn -[update_row].
    symmetry; apply map_updated_absent.
    now rewrite <- hd_error_filter, F.
  - split; reflexivity.
Qed.

Lemma delete_post_table (i : Z) :
  fst (delete_post i e w) =
    match find (has_id i) (posts w) with
    | Some _ => inr (message_json "Post deleted successfully", 200)
    | None => inr (error_json "Post not found", 404)
    end /\
  posts (snd (delete_post i e w)) =
    filter (fun q => negb (has_id i q)) (posts w).
Proof.
  rewrite delete_post_view, (storage_outcome_ok e w ok).
  cbn [string_parameters adapt_all run_statement].
  rewrite fetchone_first, hd_error_map.
  rewrite <- hd_error_filter.
  destruct (filter (has_id i) (posts w)) as [|p l] eqn:F; cbn.
  - split; [reflexivity|].
    symmetry; apply filter_absent.
    now rewrite <- hd_error_filter, F.
  - split; reflexivity.
Qed.

Lemma get_posts_table :
  fst (get_posts e w) =
    inr (PList (map post_json (order_by_created_at_desc (rank e) (posts w))),
         200).
Proof. now rewrite get_posts_view, !ok. Qed.

End Runs.

Section Order.

Lemma find_fresh (t : table) (seq : Z) :
  Forall (fun p => (id p <= seq)%Z) t -> find (has_id (seq + 1)) t = None.
Proof.
  induction 1 as [|p t Hp _ IH]; cbn; [reflexivity|].
  unfold has_id at 1.
  destruct (Z.eqb_spec (id p) (seq + 1)); [lia|exact IH].
Qed.

Lemma find_last (i : Z) (t : table) (p : post) :
  find (has_id i) t = None -> has_id i p = true ->
  find (has_id i) (t ++ [p]) = Some p /\
  filter (fun q => negb (has_id i q)) (t ++ [p]) = t.
Proof.
  intros F H; induction t as [|q t IH]; cbn in *.
  - now rewrite H.
  - destruct (has_id i q); [discriminate|]; cbn.
    destruct (IH F) as [-> ->]; split; reflexivity.
Qed.

(** Between rows of different times the rank does not count. *)
Lemma precedes_untied (r : post -> Z) (p q : post) :
  created_at q <> created_at p ->
  precedes r p q = (created_at q <? created_at p)%Z.
Proof.
  intros N; unfold precedes.
  destruct (Z.eqb_spec (created_at q) (created_at p)); [contradiction|].
  cbn; apply orb_false_r.
Qed.

Lemma insert_desc_front (r : post -> Z) (p : post) (l : list post) :
  Forall (fun q => (created_at q < created_at p)%Z) l ->
  insert_desc r p l = p :: l.
Proof.
  destruct 1 as [|q l Hq _]; cbn; [reflexivity|].
  rewrite precedes_untied by lia.
  destruct (Z.ltb_spec (created_at p) (created_at q)); [lia|reflexivity].
Qed.

(** A post newer than all others sorts first, whatever the rank. *)
Lemma order_by_newest (r : post -> Z) (p : post) (t : table) :
  Forall (fun q => (created_at q < created_at p)%Z) t ->
  order_by_created_at_desc r (t ++ [p]) = p :: order_by_created_at_desc r t.
Proof.
  induction 1 as [|q t Hq _ IH]; cbn; [reflexivity|].
  rewrite IH; cbn.
  rewrite precedes_untied by lia.
  apply Z.ltb_lt in Hq; now rewrite Hq.
Qed.

Lemma created_at_order_by (r : post -> Z) (p : post) (l : list post) :
  ~ In (created_at p) (map created_at l) ->
  ~ In (created_at p) (map created_at (order_by_created_at_desc r l)).
Proof.
  intros N H; apply N.
  eapply Permutation_in; [|exact H].
  apply Permutation_map, order_by_perm.
Qed.

Variable g : post -> post.
Hypothesis g_created_at : forall p, created_at (g p) = created_at p.

(** Sorting rows of different times commutes with a change of the other
    columns, whatever rank either sort goes by. *)
Lemma insert_desc_map (r1 r2 : post -> Z) (p : post) (l : list post) :
  ~ In (created_at p) (map created_at l) ->
  insert_desc r2 (g p) (map g l) = map g (insert_desc r1 p l).
Proof.
  induction l as [|q l IH]; cbn [map insert_desc In]; [reflexivity|].
  intros N.
  rewrite !precedes_untied, !g_created_at
    by (rewrite ?g_created_at; intros E; symmetry in E; tauto).
  destruct (created_at p <? created_at q)%Z; cbn [map]; [|reflexivity].
  rewrite IH by tauto; reflexivity.
Qed.

Lemma order_by_map (r1 r2 : post -> Z) (l : list post) :
  NoDup (map created_at l) ->
  order_by_created_at_desc r2 (map g l) =
  map g (order_by_created_at_desc r1 l).
Proof.
  induction l as [|p l IH]; cbn [map order_by_created_at_desc];
    [reflexivity|].
  intros N; inversion_clear N as [|? ? Hp Hl].
  rewrite (IH Hl); apply insert_desc_map.
  now apply created_at_order_by.
Qed.

End Order.

(** Rows of different times are listed in one order, whatever the rank. *)
Lemma order_by_untied (r1 r2 : post -> Z) (l : list post) :
  NoDup (map created_at l) ->
  order_by_created_at_desc r2 l = order_by_created_at_desc r1 l.
Proof.
  intros N.
  rewrite <- (map_id l) at 1.
  rewrite (order_by_map (fun p => p) (fun _ => eq_refl) r1 r2 l N).
  apply map_id.
Qed.

Section OrderFilter.

Variable f : post -> bool.

(** Sorting rows of different times commutes with the removal of rows. *)
Lemma insert_desc_dropped (r : post -> Z) (p : post) (l : list post) :
  f p = false -> filter f (insert_desc r p l) = filter f l.
Proof.
  intros H; induction l as [|q l IH]; cbn; [now rewrite H|].
  destruct (precedes r q p); cbn; [|now rewrite H].
  now rewrite IH.
Qed.

Lemma insert_desc_kept (r1 r2 : post -> Z) (p : post) (l : list post) :
  StronglySorted newer_first l -> f p = true ->
  ~ In (created_at p) (map created_at l) ->
  filter f (insert_desc r1 p l) = insert_desc r2 p (filter f l).
Proof.
  intros S H; induction S as [|q l S IH Hq]; cbn [map In insert_desc filter];
    [now rewrite H|].
  intros N.
  assert (Ne : created_at p <> created_at q)
    by (intros E; apply N; left; now symmetry).
  rewrite precedes_untied by exact Ne.
  destruct (Z.ltb_spec (created_at p) (created_at q)) as [Lt|Ge].
  - cbn [filter]; rewrite IH by tauto.
    destruct (f q); [|reflexivity]; cbn [insert_desc].
    rewrite precedes_untied by exact Ne.
    apply Z.ltb_lt in Lt; now rewrite Lt.
  - cbn [filter]; rewrite H.
    symmetry; apply insert_desc_front.
    change (Forall (fun x => (created_at x < created_at p)%Z)
              (filter f (q :: l))).
    apply Forall_filter; constructor; [lia|].
    eapply Forall_impl; [|exact Hq]; unfold newer_first; cbn; intros; lia.
Qed.

Lemma order_by_filter (r1 r2 : post -> Z) (l : list post) :
  NoDup (map created_at l) ->
  order_by_created_at_desc r2 (filter f l) =
  filter f (order_by_created_at_desc r1 l).
Proof.
  induction l as [|p l IH]; cbn [map filter order_by_created_at_desc];
    [reflexivity|].
  intros N; inversion_clear N as [|? ? Hp Hl].
  destruct (f p) eqn:H; cbn [order_by_created_at_desc]; rewrite (IH Hl).
  - symmetry; apply insert_desc_kept;
      [apply order_by_sorted|exact H|now apply created_at_order_by].
  - symmetry; now apply insert_desc_dropped.
Qed.

End OrderFilter.

Lemma two_posts_invariant : db_invariant two_posts.
Proof.
  split; cbn.
  - repeat constructor; vm_compute; congruence.
  - repeat constructor; vm_compute; congruence.
  - repeat constructor; cbn; intuition congruence.
Defined.

Lemma two_posts_times : NoDup (map created_at (posts two_posts)).
Proof. repeat constructor; cbn; intuition congruence. Defined.
Section Twice.

Variable i : Z.
Variables t c : pystr.

Lemma update_row_twice (p : post) :
  update_row i t c (update_row i t c p) = update_row i t c p.
Proof.
  unfold update_row; destruct (has_id i p) eqn:H; [|now rewrite H].
  change (has_id i (set_title_content t c p)) with (has_id i p).
  now rewrite H.
Qed.

Lemma find_updated (l : list post) :
  find (has_id i) (map (update_row i t c) l) =
  option_map (set_title_content t c) (find (has_id i) l).
Proof.
  now rewrite <- !hd_error_filter, filter_updated, hd_error_map.
Qed.

End Twice.

(** X11: a post that was created is listed.  For a body the driver can
    send (no NUL character, no surrogate) and a sequence that has values
    left, the create answers 201, and the list served after it holds the
    new post, with the [id], title and content the create announced, and
    the posts listed before, in some order.  When the new post is newer
    than all others it comes first; and when moreover no two of the others
    have the same [created_at], the others follow in the order they were
    listed in before. *)
Theorem created_post_is_listed
    (rq : request) (data : pyval) (t0 c0 : pystr) (e e1 e2 : env)
    (w : world) :
  storage_ok e ->
  storage_ok e1 ->
  storage_ok e2 ->
  db_invariant w ->
  (posts_id_seq w < max_serial)%Z ->
  get_json rq = inr data ->
  get data (py "title") (PStr []) = inr (PStr t0) ->
  get data (py "content") (PStr []) = inr (PStr c0) ->
  strip t0 <> [] ->
  strip c0 <> [] ->
  List.length (strip t0) <= 200 ->
  sendable (strip t0) ->
  sendable (strip c0) ->
  let p := {| id := posts_id_seq w + 1; title := strip t0;
              content := strip c0; created_at := now e |} in
  exists before after,
    fst (create_post rq e w) = inr (post_json p, 201) /\
    fst (get_posts e1 w) = inr (PList (map post_json before), 200) /\
    fst (get_posts e2 (snd (create_post rq e w))) =
      inr (PList (map post_json after), 200) /\
    Permutation after (p :: before) /\
    (Forall (fun q => (created_at q < now e)%Z) (posts w) ->
     exists rest,
       after = p :: rest /\
       Permutation rest before /\
       (NoDup (map created_at (posts w)) -> rest = before)).
Proof.
  intros ok ok1 ok2 inv Q D Ht Hc Nt Nc L St Sc p.
  pose proof (validate_accepted true rq data t0 c0 D Ht Hc Nt Nc (fun _ => L))
    as V.
  destruct (create_post_table e w ok rq _ _ inv Q V St Sc) as (R & T & _).
  exists (order_by_created_at_desc (rank e1) (posts w)).
  exists (order_by_created_at_desc (rank e2) (posts w ++ [p])).
  split; [exact R|].
  split; [apply get_posts_table; exact ok1|].
  split; [rewrite (get_posts_table e2 _ ok2), T; reflexivity|].
  split.
  - rewrite order_by_perm, order_by_perm.
    rewrite Permutation_app_comm; reflexivity.
  - intros F; exists (order_by_created_at_desc (rank e2) (posts w)).
    split; [now apply order_by_newest|].
    split; [now rewrite !order_by_perm|].
    apply order_by_untied.
Qed.

Lemma created_post_is_listed_witness :
  exists before after,
    fst (create_post (json_post (py " Third ") (py "More")) (quiet 3000)
           two_posts) =
      inr (post_json {| id := 3; title := py "Third"; content := py "More";
                        created_at := 3000 |}, 201) /\
    fst (get_posts (quiet 2500) two_posts) =
      inr (PList (map post_json before), 200) /\
    fst (get_posts (quiet 4000)
           (snd (create_post (json_post (py " Third ") (py "More"))
                   (quiet 3000) two_posts))) =
      inr (PList (map post_json after), 200) /\
    Permutation after
      ({| id := 3; title := py "Third"; content := py "More";
          created_at := 3000 |} :: before) /\
    (Forall (fun q => (created_at q < 3000)%Z) (posts two_posts) ->
     exists rest,
       after = {| id := 3; title := py "Third"; content := py "More";
                  created_at := 3000 |} :: rest /\
       Permutation rest before /\
       (NoDup (map created_at (posts two_posts)) -> rest = before)).
Proof.
  apply (created_post_is_listed (json_post (py " Third ") (py "More")) _
           (py " Third ") (py "More") (quiet 3000) (quiet 2500) (quiet 4000)
           two_posts (quiet_ok 3000) (quiet_ok 2500) (quiet_ok 4000)
           two_posts_invariant eq_refl eq_refl eq_refl eq_refl).
  - vm_compute; discriminate.
  - vm_compute; discriminate.
  - vm_compute; lia.
  - reflexivity.
  - reflexivity.
Defined.

(** X12: a delete of the [id] a create announced undoes the create.  For a
    body the driver can send and a sequence that has values left, the
    delete answers 200 and the table holds the rows it held before the
    create.  The [id] itself is not given back. *)
Theorem delete_undoes_create
    (rq : request) (data : pyval) (t0 c0 : pystr) (e e' : env) (w : world) :
  storage_ok e ->
  storage_ok e' ->
  db_invariant w ->
  (posts_id_seq w < max_serial)%Z ->
  get_json rq = inr data ->
  get data (py "title") (PStr []) = inr (PStr t0) ->
  get data (py "content") (PStr []) = inr (PStr c0) ->
  strip t0 <> [] ->
  strip c0 <> [] ->
  List.length (strip t0) <= 200 ->
  sendable (strip t0) ->
  sendable (strip c0) ->
  let w1 := snd (create_post rq e w) in
  let new := (posts_id_seq w + 1)%Z in
  fst (create_post rq e w) =
    inr (post_json {| id := new; title := strip t0; content := strip c0;
                      created_at := now e |}, 201) /\
  fst (delete_post new e' w1) =
    inr (message_json "Post deleted successfully", 200) /\
  posts (snd (delete_post new e' w1)) = posts w /\
  posts_id_seq (snd (delete_post new e' w1)) = new.
Proof.
  intros ok ok' inv Q D Ht Hc Nt Nc L St Sc w1 new; subst new.
  pose proof (validate_accepted true rq data t0 c0 D Ht Hc Nt Nc (fun _ => L))
    as V.
  destruct (create_post_table e w ok rq _ _ inv Q V St Sc) as (C & T & S).
  fold w1 in T, S.
  split; [exact C|].
  destruct (delete_post_table e' w1 ok' (posts_id_seq w + 1)) as (R & T').
  rewrite R, T', T.
  destruct (find_last (posts_id_seq w + 1) (posts w)
              {| id := posts_id_seq w + 1; title := strip t0;
                 content := strip c0; created_at := now e |}
              (find_fresh _ _ (inv_seq w inv))) as [-> ->].
  { unfold has_id; cbn; apply Z.eqb_refl. }
  repeat split.
  rewrite delete_post_view, (storage_outcome_ok e' w1 ok').
  cbn [string_parameters adapt_all run_statement]; unfold decide_delete.
  destruct (negb (truthy _)); exact S.
Qed.

Lemma delete_undoes_create_witness :
  fst (create_post (json_post (py " Second ") (py "More")) (quiet 2000)
         one_post) =
    inr (post_json {| id := 2; title := py "Second"; content := py "More";
                      created_at := 2000 |}, 201) /\
  fst (delete_post 2 (quiet 3000)
         (snd (create_post (json_post (py " Second ") (py "More"))
                 (quiet 2000) one_post))) =
    inr (message_json "Post deleted successfully", 200) /\
  posts (snd (delete_post 2 (quiet 3000)
                (snd (create_post (json_post (py " Second ") (py "More"))
                        (quiet 2000) one_post)))) = posts one_post /\
  posts_id_seq
    (snd (delete_post 2 (quiet 3000)
            (snd (create_post (json_post (py " Second ") (py "More"))
                    (quiet 2000) one_post)))) = 2%Z.
Proof.
  apply (delete_undoes_create (json_post (py " Second ") (py "More")) _
           (py " Second ") (py "More") (quiet 2000) (quiet 3000) one_post
           (quiet_ok 2000) (quiet_ok 3000) one_post_invariant
           eq_refl eq_refl eq_refl eq_refl).
  - vm_compute; discriminate.
  - vm_compute; discriminate.
  - vm_compute; lia.
  - reflexivity.
  - reflexivity.
Defined.

(** X13: an update sent twice does what it does once: the second answer is
    the first, and the table after the second is the table after the
    first. *)
Theorem update_twice
    (i : Z) (rq : request) (data : pyval) (t0 c0 : pystr)
    (e e' : env) (w : world) :
  storage_ok e ->
  storage_ok e' ->
  get_json rq = inr data ->
  get data (py "title") (PStr []) = inr (PStr t0) ->
  get data (py "content") (PStr []) = inr (PStr c0) ->
  strip t0 <> [] ->
  strip c0 <> [] ->
  List.length (strip t0) <= 200 ->
  let w1 := snd (update_post i rq e w) in
  fst (update_post i rq e' w1) = fst (update_post i rq e w) /\
  posts (snd (update_post i rq e' w1)) = posts w1.
Proof.
  intros ok ok' D Ht Hc Nt Nc L w1.
  assert (V : validate false rq = Accepted (strip t0) (strip c0))
    by (apply (validate_accepted false rq data); auto; discriminate).
  destruct (update_post_table e w ok i rq _ _ V L) as (R & T).
  fold w1 in T.
  destruct (update_post_table e' w1 ok' i rq _ _ V L) as (R' & T').
  rewrite R', T', R, T.
  destruct (adapt_all [strip t0; strip c0]); [split; reflexivity|].
  rewrite find_updated, map_map.
  split.
  - destruct (find (has_id i) (posts w)); reflexivity.
  - apply map_ext; intros p; apply update_row_twice.
Qed.

Lemma update_twice_witness :
  fst (update_post 1 (json_post (py "T") (py "C")) (quiet 20)
         (snd (update_post 1 (json_post (py "T") (py "C")) (quiet 10)
                 one_post))) =
    fst (update_post 1 (json_post (py "T") (py "C")) (quiet 10) one_post) /\
  posts (snd (update_post 1 (json_post (py "T") (py "C")) (quiet 20)
                (snd (update_post 1 (json_post (py "T") (py "C")) (quiet 10)
                        one_post)))) =
    posts (snd (update_post 1 (json_post (py "T") (py "C")) (quiet 10)
                  one_post)).
Proof.
  apply (update_twice 1 (json_post (py "T") (py "C")) _ (py "T") (py "C")
           (quiet 10) (quiet 20) one_post (quiet_ok 10) (quiet_ok 20)
           eq_refl eq_refl eq_refl).
  - vm_compute; discriminate.
  - vm_compute; discriminate.
  - vm_compute; lia.
Defined.

(** X14: an update does not move a post in a list whose order the
    timestamps decide.  When no two posts have the same [created_at] and
    the driver can send the body (no NUL character, no surrogate), the list
    served after an update is the list served before, in the same order,
    with the title and content of the post of that [id] replaced. *)
Theorem update_keeps_order
    (i : Z) (rq : request) (data : pyval) (t0 c0 : pystr)
    (e e1 e2 : env) (w : world) :
  storage_ok e ->
  storage_ok e1 ->
  storage_ok e2 ->
  NoDup (map created_at (posts w)) ->
  get_json rq = inr data ->
  get data (py "title") (PStr []) = inr (PStr t0) ->
  get data (py "content") (PStr []) = inr (PStr c0) ->
  strip t0 <> [] ->
  strip c0 <> [] ->
  List.length (strip t0) <= 200 ->
  sendable (strip t0) ->
  sendable (strip c0) ->
  exists rows,
    fst (get_posts e1 w) = inr (PList (map post_json rows), 200) /\
    fst (get_posts e2 (snd (update_post i rq e w))) =
      inr (PList (map post_json
                    (map (update_row i (strip t0) (strip c0)) rows)), 200).
Proof.
  intros ok ok1 ok2 N D Ht Hc Nt Nc L St Sc.
  assert (V : validate false rq = Accepted (strip t0) (strip c0))
    by (apply (validate_accepted false rq data); auto; discriminate).
  destruct (update_post_table e w ok i rq _ _ V L) as (_ & T).
  rewrite (adapt_fields _ _ St Sc) in T.
  exists (order_by_created_at_desc (rank e1) (posts w)).
  split; [now apply get_posts_table|].
  rewrite (get_posts_table e2 _ ok2), T.
  rewrite (order_by_map (update_row i (strip t0) (strip c0)))
    with (r1 := rank e1); [reflexivity| |exact N].
  intros p; unfold update_row; now destruct (has_id i p).
Qed.

Lemma update_keeps_order_witness :
  exists rows,
    fst (get_posts (quiet 5) two_posts) =
      inr (PList (map post_json rows), 200) /\
    fst (get_posts (quiet 20)
           (snd (update_post 1 (json_post (py "T") (py "C")) (quiet 10)
                   two_posts))) =
      inr (PList (map post_json (map (update_row 1 (py "T") (py "C")) rows)),
           200).
Proof.
  apply (update_keeps_order 1 (json_post (py "T") (py "C")) _
           (py "T") (py "C") (quiet 10) (quiet 5) (quiet 20) two_posts
           (quiet_ok 10) (quiet_ok 5) (quiet_ok 20) two_posts_times
           eq_refl eq_refl eq_refl).
  - vm_compute; discriminate.
  - vm_compute; discriminate.
  - vm_compute; lia.
  - reflexivity.
  - reflexivity.
Defined.

(** X15: a delete takes a post out of the list and touches nothing else.
    When no two posts have the same [created_at], the list served after a
    delete is the list served before, in the same order, without the post
    of that [id]. *)
Theorem delete_keeps_order (i : Z) (e e1 e2 : env) (w : world) :
  storage_ok e ->
  storage_ok e1 ->
  storage_ok e2 ->
  NoDup (map created_at (posts w)) ->
  exists rows,
    fst (get_posts e1 w) = inr (PList (map post_json rows), 200) /\
    fst (get_posts e2 (snd (delete_post i e w))) =
      inr (PList (map post_json
                    (filter (fun q => negb (has_id i q)) rows)), 200).
Proof.
  intros ok ok1 ok2 N.
  destruct (delete_post_table e w ok i) as (_ & T).
  exists (order_by_created_at_desc (rank e1) (posts w)).
  split; [now apply get_posts_table|].
  rewrite (get_posts_table e2 _ ok2), T.
  now rewrite (order_by_filter _ (rank e1) (rank e2) _ N).
Qed.

Lemma delete_keeps_order_witness :
  exists rows,
    fst (get_posts (quiet 5) two_posts) =
      inr (PList (map post_json rows), 200) /\
    fst (get_posts (quiet 20) (snd (delete_post 1 (quiet 10) two_posts))) =
      inr (PList (map post_json (filter (fun q => negb (has_id 1 q)) rows)),
           200).
Proof.
  exact (delete_keeps_order 1 (quiet 10) (quiet 5) (quiet 20) two_posts
           (quiet_ok 10) (quiet_ok 5) (quiet_ok 20) two_posts_times).
Defined.

(* ================================================================= *)
(** * What the answers of success mean *)

(** X16: a 201 is earned: whatever the body and whatever fails, when a
    create answers 201 the body was accepted by validation, the table is
    the old one followed by exactly one new row, valid and with the next
    [id] of the sequence and the time of the request, and the answer holds
    that row. *)
Theorem created_means_stored (rq : request) (e : env) (w : world) :
  status_of (fst (create_post rq e w)) = Some 201 ->
  exists p,
    fst (create_post rq e w) = inr (post_json p, 201) /\
    posts (snd (create_post rq e w)) = posts w ++ [p] /\
    validate true rq = Accepted (title p) (content p) /\
    valid_post p /\
    id p = (posts_id_seq w + 1)%Z /\
    created_at p = now e.
Proof.
  rewrite create_post_view.
  destruct (validate true rq) as [x| | | |t c] eqn:V; try discriminate.
  apply validate_statement_ok in V as (St & Nt & Sc & Nc & L).
  cbn [validated]; unfold storage_outcome.
  destruct (fault e Connect); [discriminate|].
  destruct (adapt_all _); [discriminate|].
  destruct (fault e Execute); [discriminate|].
  cbn [run_statement].
  rewrite (varchar_fits 200 t (L eq_refl)).
  destruct (max_serial <=? posts_id_seq w)%Z; [discriminate|].
  destruct (existsb _ _); [discriminate|].
  cbv zeta; unfold decide_create.
  destruct (fault e Commit); [discriminate|].
  destruct (fault e CommitReply); [discriminate|].
  intros _; eexists; repeat split; cbn; auto.
Qed.

Lemma created_means_stored_witness :
  exists p,
    fst (create_post (json_post (py " Second ") (py "More")) (quiet 2000)
           one_post) = inr (post_json p, 201) /\
    posts (snd (create_post (json_post (py " Second ") (py "More"))
                  (quiet 2000) one_post)) = posts one_post ++ [p] /\
    validate true (json_post (py " Second ") (py "More")) =
      Accepted (title p) (content p) /\
    valid_post p /\
    id p = (posts_id_seq one_post + 1)%Z /\
    created_at p = now (quiet 2000).
Proof.
  apply (created_means_stored (json_post (py " Second ") (py "More"))
           (quiet 2000) one_post).
  reflexivity.
Defined.

(** X17: a 200 of an update is earned: whatever fails, when an update
    answers 200 a row had the [id], the body was accepted with a stripped
    title of at most 200 characters, every row of that [id] holds the
    stripped title and content, and the answer holds the first of them. *)
Theorem updated_means_stored (i : Z) (rq : request) (e : env) (w : world) :
  status_of (fst (update_post i rq e w)) = Some 200 ->
  exists p t c,
    find (has_id i) (posts w) = Some p /\
    validate false rq = Accepted t c /\
    List.length t <= 200 /\
    fst (update_post i rq e w) =
      inr (post_json (set_title_content t c p), 200) /\
    posts (snd (update_post i rq e w)) = map (update_row i t c) (posts w).
Proof.
  rewrite update_post_view.
  destruct (validate false rq) as [x| | | |t c] eqn:V; try discriminate.
  pose proof (validate_statement_ok _ _ _ _ V) as (St & _).
  cbn [validated]; unfold storage_outcome.
  destruct (fault e Connect); [discriminate|].
  destruct (adapt_all _); [discriminate|].
  destruct (fault e Execute); [discriminate|].
  cbn [run_statement].
  destruct (varchar 200 t) as [x|v] eqn:Ev; [discriminate|].
  rewrite <- St in Ev; apply varchar_strip in Ev as [-> L]; rewrite St in *.
  cbv zeta; rewrite fetchone_first, filter_updated, !hd_error_map.
  rewrite hd_error_filter.
  destruct (find (has_id i) (posts w)) as [p|]; cbn [option_map];
    [|discriminate].
  unfold decide_update; cbn [as_python truthy map List.length Nat.eqb negb].
  destruct (fault e Commit); [discriminate|].
  destruct (fault e CommitReply); [discriminate|].
  intros _; exists p, t, c; repeat split; auto.
Qed.

Lemma updated_means_stored_witness :
  exists p t c,
    find (has_id 1) (posts one_post) = Some p /\
    validate false (json_post (py " T ") (py "C")) = Accepted t c /\
    List.length t <= 200 /\
    fst (update_post 1 (json_post (py " T ") (py "C")) (quiet 10) one_post) =
      inr (post_json (set_title_content t c p), 200) /\
    posts (snd (update_post 1 (json_post (py " T ") (py "C")) (quiet 10)
                  one_post)) = map (update_row 1 t c) (posts one_post).
Proof.
  apply (updated_means_stored 1 (json_post (py " T ") (py "C")) (quiet 10)
           one_post).
  reflexivity.
Defined.

(** X18: a 200 of a delete is earned: whatever fails, when a delete
    answers 200 a row had the [id], and the table holds the rows of the
    other [id]s, as they were and in their order, and no row of that
    [id]. *)
Theorem deleted_means_gone (i : Z) (e : env) (w : world) :
  status_of (fst (delete_post i e w)) = Some 200 ->
  (exists p, find (has_id i) (posts w) = Some p) /\
  posts (snd (delete_post i e w)) =
    filter (fun q => negb (has_id i q)) (posts w) /\
  find (has_id i) (posts (snd (delete_post i e w))) = None.
Proof.
  rewrite delete_post_view; unfold storage_outcome.
  destruct (fault e Connect); [discriminate|].
  cbn [string_parameters adapt_all].
  destruct (fault e Execute); [discriminate|].
  cbn [run_statement]; cbv zeta.
  rewrite fetchone_first, hd_error_map, hd_error_filter.
  destruct (find (has_id i) (posts w)) as [p|]; cbn [option_map];
    [|discriminate].
  unfold decide_delete; cbn [as_python truthy map List.length Nat.eqb negb].
  destruct (fault e Commit); [discriminate|].
  destruct (fault e CommitReply); [discriminate|].
  intros _; split; [now exists p|]; split; [reflexivity|].
  apply find_deleted.
Qed.

Lemma deleted_means_gone_witness :
  (exists p, find (has_id 1) (posts one_post) = Some p) /\
  posts (snd (delete_post 1 (quiet 0) one_post)) =
    filter (fun q => negb (has_id 1 q)) (posts one_post) /\
  find (has_id 1) (posts (snd (delete_post 1 (quiet 0) one_post))) = None.
Proof.
  apply (deleted_means_gone 1 (quiet 0) one_post); reflexivity.
Defined.


(** The table after a request is the one before, or the one its statement
    made. *)
Lemma storage_outcome_posts (f : cursor_factory) (s : statement)
    (decide : pyval -> bool * response) (e : env) (w : world) :
  posts (snd (storage_outcome f s decide e w)) = posts w \/
  exists t' rows seq,
    run_statement s (now e) (rank e) (posts w) (posts_id_seq w) =
      (inr (t', rows), seq) /\
    posts (snd (storage_outcome f s decide e w)) = t'.
Proof.
  unfold storage_outcome.
  destruct (fault e Connect); [now left|].
  destruct (adapt_all _); [now left|].
  destruct (fault e Execute); [now left|].
  destruct (run_statement _ _ _ _ _) as [[x|[t' rows]] seq]; [now left|].
  cbv zeta; destruct (decide _) as [[|] rsp]; [|now left].
  destruct (fault e Commit); [now left|].
  destruct (fault e CommitReply); right; now exists t', rows, seq.
Qed.

(** X19: writes are local, whatever the body and whatever fails: a create
    leaves the rows it found as they are and adds at most one to them; an
    update keeps the number of rows, every [id] and every [created_at], and
    the rows of other [id]s altogether (the rows before and the rows after
    are matched one to one, in whatever order the table holds them); a
    delete leaves every row of another [id] in the table, and puts no row
    in it. *)
Theorem writes_are_local (r : route) (e : env) (w : world) :
  match r with
  | POST_posts _ =>
      exists new,
        posts (snd (dispatch r e w)) = posts w ++ new /\ List.length new <= 1
  | PUT_post i _ =>
      exists rows,
        Permutation rows (posts (snd (dispatch r e w))) /\
        Forall2 (fun old new =>
                   id new = id old /\ created_at new = created_at old /\
                   (id old <> i -> new = old))
          (posts w) rows
  | DELETE_post i =>
      (forall p, In p (posts (snd (dispatch r e w))) -> In p (posts w)) /\
      (forall p, In p (posts w) -> id p <> i ->
                 In p (posts (snd (dispatch r e w))))
  | _ => True
  end.
Proof.
  assert (Same : forall i : Z,
             Forall2 (fun old new : post =>
               id new = id old /\ created_at new = created_at old /\
               (id old <> i -> new = old)) (posts w) (posts w)).
  { intros i; induction (posts w); constructor; auto. }
  destruct (dispatch_result r e w) as (_ & P & _).
  destruct r as [| |rq|i rq|i]; try exact I; rewrite P; clear P;
    cbn [view_of].
  - assert (Keep : exists new, posts w = posts w ++ new /\ List.length new <= 1).
    { exists []; rewrite app_nil_r; split; [reflexivity|cbn; lia]. }
    rewrite create_post_view.
    destruct (validate true rq) as [x| | | |t c]; cbn [validated];
      try exact Keep.
    destruct (storage_outcome_posts RealDictCursor (InsertPost t c)
                decide_create e w) as [-> | (t' & rows & seq & R & ->)];
      [exact Keep|].
    cbn [run_statement] in R.
    destruct (varchar 200 t); [discriminate|].
    destruct (max_serial <=? posts_id_seq w)%Z; [discriminate|].
    destruct (existsb _ _); [discriminate|].
    injection R as <- _ _; eexists [_]; split; [reflexivity|cbn; lia].
  - eexists; split; [reflexivity|].
    rewrite update_post_view.
    destruct (validate false rq) as [x| | | |t c]; cbn [validated];
      try apply Same.
    destruct (storage_outcome_posts RealDictCursor (UpdatePost t c i)
                decide_update e w) as [-> | (t' & rows & seq & R & ->)];
      [apply Same|].
    cbn [run_statement] in R.
    destruct (varchar 200 t) as [x|v]; [discriminate|].
    injection R as <- _ _.
    eapply Forall2_impl; [|apply map_updated].
    unfold updated_row; cbn; intros a b (H1 & H2 & _ & H3); auto.
  - rewrite delete_post_view.
    destruct (storage_outcome_posts TupleCursor (DeletePost i)
                decide_delete e w) as [E | (t' & rows & seq & R & E)];
      rewrite E.
    + split; auto.
    + cbn [run_statement] in R; injection R as <- _ _.
      split; intros p; rewrite filter_In; [tauto|].
      intros H Ni; split; [exact H|].
      unfold has_id; now rewrite negb_true_iff, Z.eqb_neq.
Qed.
